(** * Viper console: the read-parse-dispatch loop of [viper/core/ui/console.py]

    A shallow embedding of [Console.parse], [Console.keywords], the nested
    [complete] function and the main loop of [Console.start], together with
    the properties of the loop that the design document states.

    The code is read as Python 3. Its strings are modelled as [string],
    sequences of code points below 256, and the console's collaborators
    (session, command table, module registry, persistence store, glob) are
    parameters of the development. *)

From Stdlib Require Import String Ascii List Bool Arith Lia.
Import ListNotations.
Open Scope string_scope.
Open Scope list_scope.

(** ** Python string primitives used by the console *)

Module PyStr.

(** [str.isspace] of Python 3 for one character, on the code points
    below 256: the characters U+0009..U+000D, U+001C..U+001F, the space,
    U+0085 and U+00A0. Both [str.strip()] and [str.split()] without
    argument use this set. *)
Definition isspace (c : ascii) : bool :=
  let n := nat_of_ascii c in
  (((9 <=? n) && (n <=? 13)) || ((28 <=? n) && (n <=? 32))
   || (n =? 133) || (n =? 160))%nat.

(** [s.lstrip()] *)
Fixpoint lstrip (s : string) : string :=
  match s with
  | EmptyString => EmptyString
  | String c s' => if isspace c then lstrip s' else s
  end.

(** [s.rstrip()] *)
Fixpoint rstrip (s : string) : string :=
  match s with
  | EmptyString => EmptyString
  | String c s' =>
      match rstrip s' with
      | EmptyString => if isspace c then EmptyString else String c EmptyString
      | r => String c r
      end
  end.

(** [s.strip()] *)
Definition strip (s : string) : string := rstrip (lstrip s).

(** [s.split()] : the maximal runs of non-whitespace characters. *)
Fixpoint split_ws (s : string) : list string :=
  match s with
  | EmptyString => []
  | String c s' =>
      if isspace c then split_ws s'
      else
        match s' with
        | EmptyString => [String c EmptyString]
        | String c' _ =>
            if isspace c' then String c EmptyString :: split_ws s'
            else
              match split_ws s' with
              | w :: ws => String c w :: ws
              | [] => [String c EmptyString]
              end
        end
  end.

(** [s.split(sep)] for a one-character separator: always at least one
    piece, empty pieces are kept. *)
Fixpoint split (sep : ascii) (s : string) : list string :=
  match s with
  | EmptyString => [EmptyString]
  | String c s' =>
      if Ascii.eqb c sep then EmptyString :: split sep s'
      else
        match split sep s' with
        | p :: ps => String c p :: ps
        | [] => [String c EmptyString]
        end
  end.

(** [sep in s] for a one-character [sep]. *)
Fixpoint contains_char (sep : ascii) (s : string) : bool :=
  match s with
  | EmptyString => false
  | String c s' => Ascii.eqb c sep || contains_char sep s'
  end.

(** [s.startswith(p)] *)
Definition startswith (p s : string) : bool := String.prefix p s.

(** [sub in s] *)
Fixpoint contains (sub s : string) : bool :=
  startswith sub s ||
  match s with
  | EmptyString => false
  | String _ s' => contains sub s'
  end.

(** [s[1:]] *)
Definition tail (s : string) : string :=
  match s with
  | EmptyString => EmptyString
  | String _ s' => s'
  end.

(** [Some rest] when [s = p ++ rest]. *)
Fixpoint drop_prefix (p s : string) : option string :=
  match p, s with
  | EmptyString, _ => Some s
  | String a p', String b s' => if Ascii.eqb a b then drop_prefix p' s' else None
  | String _ _, EmptyString => None
  end.

(** [s.replace(old, new)] for a non-empty [old]: the occurrences of [old]
    are found from the left, each search resuming after the previous
    occurrence. The fuel bounds the number of scanning steps; [replace]
    supplies the length of [s], which is enough since every step consumes
    at least one character. *)
Fixpoint replace_fuel (fuel : nat) (old new s : string) : string :=
  match fuel with
  | O => s
  | S fuel' =>
      match drop_prefix old s with
      | Some rest => new ++ replace_fuel fuel' old new rest
      | None =>
          match s with
          | EmptyString => EmptyString
          | String c s' => String c (replace_fuel fuel' old new s')
          end
      end
  end.

Definition replace (old new s : string) : string :=
  replace_fuel (String.length s) old new s.

(** The pieces of [s] between the occurrences of [old] that [replace]
    finds (what [s.split(old)] returns for a non-empty [old]). *)
Fixpoint pieces_fuel (fuel : nat) (old s : string) : list string :=
  match fuel with
  | O => [s]
  | S fuel' =>
      match drop_prefix old s with
      | Some rest => EmptyString :: pieces_fuel fuel' old rest
      | None =>
          match s with
          | EmptyString => [EmptyString]
          | String c s' =>
              match pieces_fuel fuel' old s' with
              | p :: ps => String c p :: ps
              | [] => [String c EmptyString]
              end
          end
      end
  end.

Definition pieces (old s : string) : list string :=
  pieces_fuel (String.length s) old s.

(** [sep.join(ps)] *)
Fixpoint join (sep : string) (ps : list string) : string :=
  match ps with
  | [] => EmptyString
  | [p] => p
  | p :: ps' => p ++ sep ++ join sep ps'
  end.

End PyStr.

Import PyStr.

(** ** Exceptions, observable events and collaborators *)

(** The exceptions the loop distinguishes: its handlers are
    [except KeyboardInterrupt] and [except Exception]; anything else
    derived from [BaseException] (such as [SystemExit]) passes through both. *)
Inductive pyexn : Type :=
| Exception (cls detail : string)
| KeyboardInterrupt
| BaseException (cls : string).

Inductive kind : Type := Builtin | Module.

(** What the operator and the operating system observe. An [Invoke]
    records the value of [console_output['filename']] at the time of the
    call and whether the call raised. *)
Inductive event : Type :=
| Print (s : string)
| PrintError (s : string)
| PrintExc (e : pyexn)
| System (cmd : string)
| Invoke (k : kind) (root : string) (args : list string)
         (target : option string) (raised : option pyexn)
| AddAnalysis (cmd : string) (output : list string).

(** The effect of calling a built-in handler, or of instantiating a module,
    passing it its command line and running it. *)
Record effect (X : Type) : Type := mkEffect {
  raised : option pyexn;
  new_ext : X;
  new_output : list string
}.
Arguments mkEffect {X}.
Arguments raised {X}.
Arguments new_ext {X}.
Arguments new_output {X}.

(** A handler receives its arguments and reads the redirect target, the
    state of the collaborators and its output buffer. *)
Definition handler (X : Type) : Type :=
  list string -> option string -> X -> list string -> effect X.

(** The collaborators of the console, none of which is defined in
    [console.py]: [Ext] is the state of the session, project and database;
    [current_file_path] is [None] when [__sessions__.current.file] is
    [None] (the prompt code tests for it); [commands] is
    [self.cmd.commands] and [modules] is [__modules__], as association
    lists in the iteration order of the dictionaries. *)
Record Env : Type := mkEnv {
  Ext : Type;
  is_set : Ext -> bool;
  current_file_path : Ext -> option string;
  commands : list (string * handler Ext);
  modules : list (string * handler Ext);
  store_output : bool;
  add_analysis : string -> list string -> Ext -> Ext;
  bold : string -> string;
  home : string;
  glob : string -> list string
}.

(** [k in d] and [d[k]] on a dictionary. *)
Fixpoint lookup {A : Type} (k : string) (d : list (string * A)) : option A :=
  match d with
  | [] => None
  | (k', v) :: d' => if String.eqb k k' then Some v else lookup k d'
  end.

(** ** The console *)

Section Console.

Variable E : Env.

(** [self.active], [console_output['filename']], the collaborators,
    [self.cmd.output], and the [output] list of each module. The class of
    the modules is not in [console.py]: the model keeps one list per
    module name and hands it to the run, which covers an [output] shared
    by the instances of a module as well as one created afresh (a run
    that ignores the list it receives). *)
Record state : Type := mkState {
  active : bool;
  filename : option string;
  ext : Ext E;
  cmd_output : list string;
  mod_output : string -> list string
}.

(** Computations that read and write the state, emit events and may
    raise. *)
Definition M (A : Type) : Type := state -> (A + pyexn) * state * list event.

Definition ret {A : Type} (a : A) : M A := fun st => (inl a, st, []).

Definition bind {A B : Type} (m : M A) (f : A -> M B) : M B :=
  fun st =>
    match m st with
    | (inl a, st1, ev1) =>
        match f a st1 with
        | (r, st2, ev2) => (r, st2, ev1 ++ ev2)
        end
    | (inr e, st1, ev1) => (inr e, st1, ev1)
    end.

Definition raise {A : Type} (e : pyexn) : M A := fun st => (inr e, st, []).

Definition emit (ev : event) : M unit := fun st => (inl tt, st, [ev]).

Definition get : M state := fun st => (inl st, st, []).

Definition modify (f : state -> state) : M unit := fun st => (inl tt, f st, []).

(** [try: m except ...: h] *)
Definition catch {A : Type} (m : M A) (h : pyexn -> M A) : M A :=
  fun st =>
    match m st with
    | (inl a, st1, ev1) => (inl a, st1, ev1)
    | (inr e, st1, ev1) =>
        match h e st1 with
        | (r, st2, ev2) => (r, st2, ev1 ++ ev2)
        end
    end.

(** [for x in xs: body(x)] *)
Fixpoint for_each {A : Type} (xs : list A) (body : A -> M unit) : M unit :=
  match xs with
  | [] => ret tt
  | x :: xs' => bind (body x) (fun _ => for_each xs' body)
  end.

(** The three components of what a computation yields. *)
Definition outcome {A : Type} (r : (A + pyexn) * state * list event) : A + pyexn :=
  fst (fst r).

Definition state_after {A : Type} (r : (A + pyexn) * state * list event) : state :=
  snd (fst r).

Definition events {A : Type} (r : (A + pyexn) * state * list event) : list event :=
  snd r.

End Console.

(** The redirect targets seen by the calls of a trace, in order. *)
Fixpoint targets (evs : list event) : list (option string) :=
  match evs with
  | [] => []
  | Invoke _ _ _ t _ :: evs' => t :: targets evs'
  | _ :: evs' => targets evs'
  end.

(** The commands and modules called in a trace, in order. *)
Fixpoint calls (evs : list event) : list (kind * string) :=
  match evs with
  | [] => []
  | Invoke k root _ _ _ :: evs' => (k, root) :: calls evs'
  | _ :: evs' => calls evs'
  end.

Arguments outcome {E A}.
Arguments state_after {E A}.
Arguments events {E A}.
Arguments ret {E A}.
Arguments bind {E A B}.
Arguments raise {E A}.
Arguments emit {E}.
Arguments get {E}.
Arguments modify {E}.
Arguments catch {E A}.
Arguments for_each {E A}.
Arguments mkState {E}.
Arguments active {E}.
Arguments filename {E}.
Arguments ext {E}.
Arguments cmd_output {E}.
Arguments mod_output {E}.

Notation "x <- m ;; k" := (bind m (fun x => k))
  (at level 61, m at next level, right associativity).
Notation "m ;; k" := (bind m (fun _ => k))
  (at level 61, right associativity).

Section Loop.

Variable E : Env.

Definition set_active (b : bool) (st : state E) : state E :=
  mkState b (filename st) (ext st) (cmd_output st) (mod_output st).

Definition set_filename (f : option string) (st : state E) : state E :=
  mkState (active st) f (ext st) (cmd_output st) (mod_output st).

Definition set_ext (x : Ext E) (st : state E) : state E :=
  mkState (active st) (filename st) x (cmd_output st) (mod_output st).

Definition set_cmd_output (o : list string) (st : state E) : state E :=
  mkState (active st) (filename st) (ext st) o (mod_output st).

Definition set_mod_output (name : string) (o : list string) (st : state E) : state E :=
  mkState (active st) (filename st) (ext st) (cmd_output st)
          (fun n => if String.eqb n name then o else mod_output st n).

(** [Console.parse]: [words[0]] raises [IndexError] on an empty list. *)
Definition parse (data : string) : M E (string * list string) :=
  match split_ws data with
  | [] => raise (Exception "IndexError" "list index out of range")
  | root :: args => ret (root, args)
  end.

(** [Console.keywords]: [None] is the value returned without a session. *)
Definition keywords (data : string) : M E (option string) :=
  if contains "$self" data then
    st <- get ;;
    if is_set E (ext st) then
      match current_file_path E (ext st) with
      | Some path => ret (Some (replace "$self" path data))
      | None =>
          raise (Exception "AttributeError"
                           "'NoneType' object has no attribute 'path'")
      end
    else
      emit (Print "No open session") ;;
      ret None
  else ret (Some data).

(** [Console.stop] *)
Definition stop : M E unit := modify (set_active false).

(** The call of [self.cmd.commands[root]['obj']] on the unpacked [args]. *)
Definition call_command (root : string) (h : handler (Ext E))
    (args : list string) : M E unit :=
  fun st =>
    let r := h args (filename st) (ext st) (cmd_output st) in
    (match raised r with None => inl tt | Some e => inr e end,
     set_cmd_output (new_output r) (set_ext (new_ext r) st),
     [Invoke Builtin root args (filename st) (raised r)]).

(** [module = __modules__[root]['obj'](); module.set_commandline(args);
    module.run()] *)
Definition run_module (root : string) (h : handler (Ext E))
    (args : list string) : M E unit :=
  fun st =>
    let r := h args (filename st) (ext st) (mod_output st root) in
    (match raised r with None => inl tt | Some e => inr e end,
     set_mod_output root (new_output r) (set_ext (new_ext r) st),
     [Invoke Module root args (filename st) (raised r)]).

(** [Database().add_analysis(__sessions__.current.file.sha256, ...)]
    inside [try: ... except: pass]. When the session has no file, the
    first argument raises [AttributeError], which the bare [except]
    swallows: [add_analysis] is then not called. *)
Definition persist (root split_command : string) : M E unit :=
  fun st =>
    match current_file_path E (ext st) with
    | Some _ =>
        (inl tt,
         set_ext (add_analysis E split_command (mod_output st root) (ext st)) st,
         [AddAnalysis split_command (mod_output st root)])
    | None => (inl tt, st, [])
    end.

(** The body of the [try] statement of lines 227-247. *)
Definition resolve (root : string) (args : list string)
    (split_command : string) : M E unit :=
  match lookup root (commands E) with
  | Some h =>
      call_command root h args ;;
      modify (set_cmd_output [])
  | None =>
      match lookup root (modules E) with
      | Some h =>
          run_module root h args ;;
          st <- get ;;
          (if store_output E && is_set E (ext st)
           then persist root split_command else ret tt) ;;
          modify (set_mod_output root [])
      | None => emit (Print "Command not recognized.")
      end
  end.

(** The two [except] clauses of lines 248-252. *)
Definition on_exception (root : string) (e : pyexn) : M E unit :=
  match e with
  | KeyboardInterrupt => ret tt
  | Exception _ _ =>
      emit (PrintError ("The command " ++ bold E root ++ " raised an exception:")) ;;
      emit (PrintExc e)
  | BaseException _ => raise e
  end.

Definition is_termination (root : string) : bool :=
  String.eqb root "exit" || String.eqb root "quit".

(** The body of the [for] loop of lines 213-252. *)
Definition dispatch_unit (split_command : string) : M E unit :=
  let split_command := strip split_command in
  if String.eqb split_command "" then ret tt
  else
    ra <- parse split_command ;;
    let (root, args) := ra : string * list string in
    if is_termination root then stop
    else catch (resolve root args split_command) (on_exception root).

(** Lines 194-196: the tuple assignment raises [ValueError] unless the
    split yields exactly two pieces. *)
Definition redirect (data : string) : M E string :=
  if contains_char ">" data then
    match split ">" data with
    | [d; f] =>
        modify (set_filename (Some f)) ;;
        emit (Print ("Writing output to " ++ strip f)) ;;
        ret d
    | _ => raise (Exception "ValueError" "too many values to unpack (expected 2)")
    end
  else ret data.

(** Lines 192-254, for a line on which [keywords] returned [data]. The
    event [System] records the command handed to [os.system]; whether
    that call or a [print] itself fails is not modelled. *)
Definition execute (data : string) : M E unit :=
  data <- redirect data ;;
  if startswith "!" data then emit (System (tail data))
  else
    for_each (split ";" data) dispatch_unit ;;
    modify (set_filename None).

(** The [else] branch of the [try] around [input], lines 184-254; [data]
    is the stripped input line. *)
Definition process_line (data : string) : M E unit :=
  kw <- keywords data ;;
  match kw with
  | None => ret tt
  | Some EmptyString => ret tt
  | Some data => execute data
  end.

(** What [input(prompt)] does. *)
Inductive input : Type :=
| Line (raw : string)
| Interrupt
| EOF.

(** One iteration of the [while] loop (the prompt is not modelled). *)
Definition iteration (i : input) : M E unit :=
  match i with
  | Interrupt => emit (Print "")
  | EOF => stop ;; emit (Print "")
  | Line raw => process_line (strip raw)
  end.

(** How a run of the loop over finitely many inputs ends. *)
Inductive halt : Type :=
| Stopped
| AwaitingInput
| Crashed (e : pyexn).

Record run : Type := mkRun {
  ending : halt;
  final : state E;
  trace : list event;
  unread : list input
}.

(** [while self.active: ...] on the inputs the operator supplies; the
    logo and the set-up of readline that precede the loop are left out.
    The run ends when the flag is cleared, when an exception leaves the
    loop, or, in the model, when the supplied inputs are used up. *)
Fixpoint start (inputs : list input) (st : state E) : run :=
  if active st then
    match inputs with
    | [] => mkRun AwaitingInput st [] []
    | i :: rest =>
        match iteration i st with
        | (inl _, st1, ev1) =>
            let r := start rest st1 in
            mkRun (ending r) (final r) (ev1 ++ trace r) (unread r)
        | (inr e, st1, ev1) => mkRun (Crashed e) st1 ev1 rest
        end
    end
  else mkRun Stopped st [] inputs.

(** The nested function [complete] of lines 103-115. *)
Definition complete (text : string) (state : nat) : option string + pyexn :=
  let completions :=
    filter (startswith text) (map fst (commands E)) ++
    filter (startswith text) (map fst (modules E)) in
  if (state <? List.length completions)%nat then inl (nth_error completions state)
  else
    let text := if startswith "~" text then (home E ++ tail text)%string else text in
    match nth_error (map Some (glob E (text ++ "*")) ++ [None]) state with
    | Some r => inl r
    | None => inr (Exception "IndexError" "list index out of range")
    end.

End Loop.

Arguments ending {E}.
Arguments final {E}.
Arguments trace {E}.
Arguments unread {E}.


(** ** Two concrete environments, used to run the model *)

Module Demo.

(** The session is either absent or holds the path of its artifact. *)
Definition has_session (x : option string) : bool :=
  match x with Some _ => true | None => false end.

Definition cmdA : handler (option string) :=
  fun _ _ x o => mkEffect None x (o ++ ["A"]).

Definition badCmd : handler (option string) :=
  fun _ _ x o => mkEffect (Some (Exception "RuntimeError" "boom")) x (o ++ ["partial"]).

Definition cmdC : handler (option string) :=
  fun _ _ x o => mkEffect None x (o ++ ["C"]).

Definition pdf : handler (option string) :=
  fun _ _ x o => mkEffect None x (o ++ ["pdf out"]).

Definition env : Env :=
  mkEnv (option string) has_session (fun x => x)
        [("cmdA", cmdA); ("badCmd", badCmd); ("cmdC", cmdC)]
        [("pdf", pdf)]
        true (fun _ _ x => x) (fun s => s) "/home/op" (fun _ => []).

Definition init (session : option string) : state env :=
  @mkState env true None session [] (fun _ => []).

(** The completion example of the design document, with one file in the
    working directory. *)
Definition fenv : Env :=
  mkEnv (option string) has_session (fun x => x)
        [("find", cmdA); ("finish", cmdC)]
        [("fileinfo", pdf)]
        true (fun _ _ x => x) (fun s => s) "/home/op"
        (fun pat => if String.eqb pat "f*" then ["foo.txt"] else []).

End Demo.

(** ** Vocabulary of the further properties *)

(** Whether a string has a whitespace character. *)
Fixpoint has_space (s : string) : bool :=
  match s with
  | EmptyString => false
  | String c s' => isspace c || has_space s'
  end.

(** The commands handed to [os.system] in a trace, in order. *)
Fixpoint systems (evs : list event) : list string :=
  match evs with
  | [] => []
  | System cmd :: evs' => cmd :: systems evs'
  | _ :: evs' => systems evs'
  end.

(** The analyses handed to the store in a trace, in order. *)
Fixpoint persisted (evs : list event) : list (string * list string) :=
  match evs with
  | [] => []
  | AddAnalysis cmd out :: evs' => (cmd, out) :: persisted evs'
  | _ :: evs' => persisted evs'
  end.

(** Whether the first word of a chain unit is [exit] or [quit]. *)
Definition terminates (u : string) : bool :=
  match split_ws (strip u) with
  | root :: _ => is_termination root
  | [] => false
  end.

(** The list [completions] that [complete] builds, and the pattern it
    hands to [glob.glob]. *)
Definition matching_names (E : Env) (text : string) : list string :=
  filter (startswith text) (map fst (commands E)) ++
  filter (startswith text) (map fst (modules E)).

Definition path_pattern (E : Env) (text : string) : string :=
  ((if startswith "~" text then home E ++ tail text else text) ++ "*")%string.

(** An environment with a name that is both a command and a module, a
    handler that is interrupted and one that exits the interpreter. *)
Module Demo2.

Definition ok (line : string) : handler (option string) :=
  fun _ _ x o => mkEffect None x (o ++ [line]).

Definition interrupted : handler (option string) :=
  fun _ _ x o => mkEffect (Some KeyboardInterrupt) x (o ++ ["half"]).

Definition exits : handler (option string) :=
  fun _ _ x o => mkEffect (Some (BaseException "SystemExit")) x o.

Definition fails : handler (option string) :=
  fun _ _ x o => mkEffect (Some (Exception "IOError" "no file")) x (o ++ ["begun"]).

Definition env : Env :=
  mkEnv (option string) Demo.has_session (fun x => x)
        [("find", ok "found"); ("pdf", ok "builtin pdf");
         ("stuck", interrupted); ("bye", exits)]
        [("pdf", ok "module pdf"); ("strings", ok "text"); ("yara", fails)]
        true (fun _ _ x => x) (fun s => s) "/home/op"
        (fun pat => if String.eqb pat "/home/op/sa*"
                    then ["/home/op/samples"; "/home/op/sandbox"] else []).

Definition init (session : option string) : state env :=
  @mkState env true None session [] (fun _ => []).

End Demo2.

(** An environment whose session may lack a file: no session, a session
    without file (as opened on an event alone), or a session on a file. *)
Module Demo3.

Definition is_set (x : option (option string)) : bool :=
  match x with Some _ => true | None => false end.

Definition file_path (x : option (option string)) : option string :=
  match x with Some f => f | None => None end.

Definition ok (line : string) : handler (option (option string)) :=
  fun _ _ x o => mkEffect None x (o ++ [line]).

Definition env : Env :=
  mkEnv (option (option string)) is_set file_path
        [("find", ok "found")]
        [("strings", ok "text")]
        true (fun _ _ x => x) (fun s => s) "/home/op" (fun _ => []).

Definition init (session : option (option string)) : state env :=
  @mkState env true None session [] (fun _ => []).

End Demo3.

(** * Properties *)

(** ** Strings *)

Section StringFacts.

Lemma lstrip_head (s r : string) (c : ascii) :
  lstrip s = String c r -> isspace c = false.
Proof.
  induction s as [|a s IH]; simpl; [discriminate|].
  destruct (isspace a) eqn:Ha; [exact IH|].
  intros H; injection H as -> _; exact Ha.
Qed.

Lemma rstrip_head (s : string) (c : ascii) :
  isspace c = false -> exists r, rstrip (String c s) = String c r.
Proof.
  intros Hc; simpl. destruct (rstrip s); rewrite ?Hc; eauto.
Qed.

Lemma strip_head (s r : string) (c : ascii) :
  strip s = String c r -> isspace c = false.
Proof.
  unfold strip. destruct (lstrip s) as [|a l] eqn:Hl; [discriminate|].
  pose proof (lstrip_head _ _ _ Hl) as Ha.
  destruct (rstrip_head l a Ha) as [r' ->].
  intros H; injection H as -> _; exact Ha.
Qed.

Lemma split_ws_head (s : string) (c : ascii) :
  isspace c = false -> split_ws (String c s) <> [].
Proof.
  intros Hc; simpl; rewrite Hc.
  destruct s as [|a s]; [discriminate|].
  destruct (isspace a); [discriminate|].
  destruct (split_ws (String a s)); discriminate.
Qed.

(** A trimmed, non-empty string has a first word. *)
Lemma split_ws_strip (s : string) :
  strip s <> "" -> exists root args, split_ws (strip s) = root :: args.
Proof.
  intros Hne. destruct (strip s) as [|c r] eqn:Hs; [congruence|].
  pose proof (split_ws_head r c (strip_head _ _ _ Hs)) as Hw.
  destruct (split_ws (String c r)) as [|root args]; [congruence|eauto].
Qed.

Lemma contains_char_app (c : ascii) (a b : string) :
  contains_char c (a ++ b) = contains_char c a || contains_char c b.
Proof.
  induction a as [|x a IH]; simpl; [reflexivity|].
  rewrite IH, orb_assoc; reflexivity.
Qed.

Lemma split_nonempty (c : ascii) (s : string) : split c s <> [].
Proof.
  destruct s as [|a s]; simpl; [discriminate|].
  destruct (Ascii.eqb a c); [discriminate|].
  destruct (split c s); discriminate.
Qed.

Lemma split_clean (c : ascii) (s : string) :
  contains_char c s = false -> split c s = [s].
Proof.
  induction s as [|a s IH]; simpl; [reflexivity|].
  destruct (Ascii.eqb a c); simpl; [discriminate|].
  intros H; rewrite (IH H); reflexivity.
Qed.

Lemma split_app (c : ascii) (a b : string) :
  contains_char c a = false ->
  split c (a ++ String c b) = a :: split c b.
Proof.
  induction a as [|x a IH]; simpl.
  - rewrite Ascii.eqb_refl; reflexivity.
  - destruct (Ascii.eqb x c); simpl; [discriminate|].
    intros H; rewrite (IH H); reflexivity.
Qed.


Lemma split_length (c : ascii) (s : string) :
  contains_char c s = true -> 2 <= List.length (split c s).
Proof.
  induction s as [|a s IH]; simpl; [discriminate|].
  destruct (Ascii.eqb a c); simpl.
  - intros _. pose proof (split_nonempty c s).
    destruct (split c s); simpl; [congruence|lia].
  - intros H. specialize (IH H).
    destruct (split c s); simpl in *; lia.
Qed.

(** *** [replace] and the pieces between the occurrences *)

Lemma drop_prefix_app (p s r : string) :
  drop_prefix p s = Some r -> s = (p ++ r)%string.
Proof.
  revert s; induction p as [|a p IH]; intros [|b s]; simpl;
    try discriminate; try (intros H; injection H as ->; reflexivity).
  destruct (Ascii.eqb a b) eqn:Hab; [|discriminate].
  apply Ascii.eqb_eq in Hab; subst b.
  intros H; rewrite (IH _ H); reflexivity.
Qed.

Lemma drop_prefix_none (p s : string) :
  drop_prefix p s = None -> startswith p s = false.
Proof.
  unfold startswith.
  revert s; induction p as [|a p IH]; intros [|b s]; simpl;
    try discriminate; try reflexivity.
  destruct (Ascii.eqb a b) eqn:Hab.
  - apply Ascii.eqb_eq in Hab; subst b.
    destruct (ascii_dec a a); [apply IH|congruence].
  - apply Ascii.eqb_neq in Hab.
    destruct (ascii_dec a b); [congruence|reflexivity].
Qed.

Lemma startswith_app (p a t : string) :
  startswith p a = true -> startswith p (a ++ t) = true.
Proof.
  unfold startswith.
  revert a; induction p as [|x p IH]; intros [|y a]; simpl; auto;
    try discriminate.
  - destruct t; reflexivity.
  - destruct (ascii_dec x y); [apply IH|discriminate].
Qed.

Lemma length_app (a b : string) :
  String.length (a ++ b) = String.length a + String.length b.
Proof.
  induction a as [|x a IH]; simpl; [reflexivity|rewrite IH; reflexivity].
Qed.

Lemma pieces_fuel_nonempty (n : nat) (old s : string) :
  pieces_fuel n old s <> [].
Proof.
  destruct n as [|n]; simpl; [discriminate|].
  destruct (drop_prefix old s); [discriminate|].
  destruct s as [|c s]; [discriminate|].
  destruct (pieces_fuel n old s); discriminate.
Qed.

Lemma join_cons_char (sep p : string) (c : ascii) (ps : list string) :
  join sep (String c p :: ps) = String c (join sep (p :: ps)).
Proof. destruct ps; reflexivity. Qed.

Lemma join_cons_empty (sep : string) (ps : list string) :
  ps <> [] -> join sep (EmptyString :: ps) = (sep ++ join sep ps)%string.
Proof. destruct ps; [congruence|reflexivity]. Qed.

Lemma join_head (sep p : string) (ps : list string) :
  exists t, join sep (p :: ps) = (p ++ t)%string.
Proof.
  destruct ps as [|q qs].
  - exists EmptyString. simpl.
    induction p as [|c p IH]; simpl; [reflexivity|rewrite <- IH; reflexivity].
  - eexists; reflexivity.
Qed.

(** Joining the pieces with [old] gives the string back. *)
Lemma join_pieces_fuel (old : string) (n : nat) (s : string) :
  join old (pieces_fuel n old s) = s.
Proof.
  revert s; induction n as [|n IH]; intros s; simpl; [reflexivity|].
  destruct (drop_prefix old s) as [rest|] eqn:Hd.
  - rewrite join_cons_empty by apply pieces_fuel_nonempty.
    rewrite IH. symmetry; apply drop_prefix_app; exact Hd.
  - destruct s as [|c s]; [reflexivity|].
    specialize (IH s).
    destruct (pieces_fuel n old s) as [|p ps] eqn:Hp.
    + exfalso; apply (pieces_fuel_nonempty n old s); exact Hp.
    + rewrite join_cons_char, IH; reflexivity.
Qed.

(** Joining the pieces with [new] is the replacement. *)
Lemma join_replace_fuel (old new : string) (n : nat) (s : string) :
  join new (pieces_fuel n old s) = replace_fuel n old new s.
Proof.
  revert s; induction n as [|n IH]; intros s; simpl; [reflexivity|].
  destruct (drop_prefix old s) as [rest|] eqn:Hd.
  - rewrite join_cons_empty by apply pieces_fuel_nonempty.
    rewrite IH; reflexivity.
  - destruct s as [|c s]; [reflexivity|].
    specialize (IH s).
    destruct (pieces_fuel n old s) as [|p ps] eqn:Hp.
    + exfalso; apply (pieces_fuel_nonempty n old s); exact Hp.
    + rewrite join_cons_char, IH; reflexivity.
Qed.

(** With enough fuel no piece contains [old]. *)
Lemma pieces_fuel_clean (old : string) (n : nat) (s : string) :
  old <> "" -> String.length s <= n ->
  Forall (fun p => contains old p = false) (pieces_fuel n old s).
Proof.
  intros Hold. revert s; induction n as [|n IH]; intros s Hlen; simpl.
  - destruct s; [|simpl in Hlen; lia].
    constructor; [|constructor].
    destruct old; [congruence|reflexivity].
  - destruct (drop_prefix old s) as [rest|] eqn:Hd.
    + constructor; [destruct old; [congruence|reflexivity]|].
      apply IH. apply drop_prefix_app in Hd; subst s.
      rewrite length_app in Hlen.
      destruct old; [congruence|simpl in Hlen; lia].
    + destruct s as [|c s].
      * constructor; [|constructor].
        destruct old; [congruence|reflexivity].
      * simpl in Hlen.
        assert (Hs : String.length s <= n) by lia.
        specialize (IH s Hs).
        pose proof (join_pieces_fuel old n s) as Hj.
        destruct (pieces_fuel n old s) as [|p ps] eqn:Hp.
        -- exfalso; apply (pieces_fuel_nonempty n old s); exact Hp.
        -- pose proof (Forall_inv IH) as Hcp. simpl in Hcp.
           constructor; [|exact (Forall_inv_tail IH)].
           change (contains old (String c p))
             with (startswith old (String c p) || contains old p).
           rewrite Hcp, orb_false_r.
           destruct (startswith old (String c p)) eqn:Hsw; [|reflexivity].
           destruct (join_head old p ps) as [t Ht].
           rewrite Ht in Hj.
           apply (startswith_app _ _ t) in Hsw.
           change (String c p ++ t)%string with (String c (p ++ t)) in Hsw.
           rewrite Hj in Hsw.
           rewrite (drop_prefix_none _ _ Hd) in Hsw; discriminate.
Qed.

(** [s.replace(old, new)] cuts [s] at occurrences of [old] into pieces
    that contain no further occurrence, and puts [new] between them. *)
Lemma replace_spec (old new s : string) :
  old <> "" ->
  join old (pieces old s) = s /\
  Forall (fun p => contains old p = false) (pieces old s) /\
  replace old new s = join new (pieces old s).
Proof.
  intros Hold. unfold pieces, replace. split; [apply join_pieces_fuel|].
  split; [apply pieces_fuel_clean; [exact Hold|lia]|].
  symmetry; apply join_replace_fuel.
Qed.


End StringFacts.

(** ** The dispatcher *)

Section Dispatch.

Variable E : Env.

Lemma targets_app (a b : list event) : targets (a ++ b) = targets a ++ targets b.
Proof.
  induction a as [|e a IH]; simpl; [reflexivity|].
  destruct e; simpl; rewrite IH; reflexivity.
Qed.

Lemma calls_app (a b : list event) : calls (a ++ b) = calls a ++ calls b.
Proof.
  induction a as [|e a IH]; simpl; [reflexivity|].
  destruct e; simpl; rewrite IH; reflexivity.
Qed.

Lemma bind_assoc {A B C : Type} (m : M E A) (f : A -> M E B) (g : B -> M E C)
    (st : state E) :
  bind (bind m f) g st = bind m (fun x => bind (f x) g) st.
Proof.
  unfold bind.
  destruct (m st) as [[[a|e] st1] ev1]; [|reflexivity].
  destruct (f a st1) as [[[b|e] st2] ev2]; [|reflexivity].
  destruct (g b st2) as [[r st3] ev3].
  rewrite app_assoc; reflexivity.
Qed.

Lemma bind_ext {A B : Type} (m : M E A) (f g : A -> M E B) (st : state E) :
  (forall a st', f a st' = g a st') -> bind m f st = bind m g st.
Proof.
  intros H; unfold bind.
  destruct (m st) as [[[a|e] st1] ev1]; [rewrite H|]; reflexivity.
Qed.

Lemma for_each_app {A : Type} (xs ys : list A) (body : A -> M E unit) (st : state E) :
  for_each (xs ++ ys) body st = (for_each xs body ;; for_each ys body) st.
Proof.
  revert st; induction xs as [|x xs IH]; intros st; simpl.
  - unfold bind, ret. destruct (for_each ys body st) as [[r st'] ev]; reflexivity.
  - rewrite bind_assoc. apply bind_ext; intros _ st'; apply IH.
Qed.

(** A blank chain unit is skipped. *)
Lemma dispatch_unit_blank (u : string) (st : state E) :
  strip u = "" -> dispatch_unit E u st = (inl tt, st, []).
Proof. intros H; unfold dispatch_unit; rewrite H; reflexivity. Qed.

(** A unit with a first word is either a termination keyword or goes
    through the guarded resolution. *)
Lemma dispatch_unit_parsed (u root : string) (args : list string) (st : state E) :
  split_ws (strip u) = root :: args ->
  dispatch_unit E u st =
  (if is_termination root then stop E
   else catch (resolve E root args (strip u)) (on_exception E root)) st.
Proof.
  intros H. unfold dispatch_unit.
  destruct (String.eqb (strip u) "") eqn:Hb.
  - apply String.eqb_eq in Hb. rewrite Hb in H; discriminate.
  - unfold parse; rewrite H. unfold bind, ret.
    destruct (is_termination root).
    + unfold stop, modify; reflexivity.
    + destruct (catch (resolve E root args (strip u)) (on_exception E root) st)
        as [[r st'] ev]; reflexivity.
Qed.

(** Every unit falls under one of the two lemmas above: [parse] never
    raises inside the loop. *)
Lemma dispatch_unit_cases (u : string) :
  strip u = "" \/ exists root args, split_ws (strip u) = root :: args.
Proof.
  destruct (String.eqb (strip u) "") eqn:Hb.
  - left; apply String.eqb_eq; exact Hb.
  - right; apply split_ws_strip; apply String.eqb_neq; exact Hb.
Qed.

(** The guarded resolution changes neither the redirect target nor the
    active flag, and every call it makes sees the current target. *)
Lemma guarded_resolve_inv (root cmd : string) (args : list string) (st : state E) :
  let r := catch (resolve E root args cmd) (on_exception E root) st in
  filename (state_after r) = filename st /\
  active (state_after r) = active st /\
  Forall (fun t => t = filename st) (targets (events r)).
Proof.
  unfold catch, resolve.
  destruct (lookup root (commands E)) as [h|].
  - unfold bind, call_command, modify, on_exception, emit, ret, raise.
    destruct (raised (h args (filename st) (ext st) (cmd_output st))) as [[cls d| |cls]|];
      simpl; repeat split; auto.
  - destruct (lookup root (modules E)) as [h|].
    + unfold bind, run_module, get, persist, modify, on_exception, emit, ret, raise.
      destruct (raised (h args (filename st) (ext st) (mod_output st root)))
        as [[cls d| |cls]|]; simpl; repeat split; auto.
      all: destruct (store_output E && is_set E (new_ext _));
        try destruct (current_file_path E _); simpl; repeat split; auto.
    + unfold emit; simpl; repeat split; auto.
Qed.

Lemma dispatch_unit_inv (u : string) (st : state E) :
  let r := dispatch_unit E u st in
  filename (state_after r) = filename st /\
  (active st = false -> active (state_after r) = false) /\
  Forall (fun t => t = filename st) (targets (events r)).
Proof.
  destruct (dispatch_unit_cases u) as [Hb|(root & args & Hp)].
  - rewrite (dispatch_unit_blank u st Hb); simpl; auto.
  - rewrite (dispatch_unit_parsed u root args st Hp).
    destruct (is_termination root).
    + simpl; auto.
    + destruct (guarded_resolve_inv root (strip u) args st) as (Hf & Ha & Ht).
      simpl; repeat split; auto. intros H; rewrite Ha; exact H.
Qed.

Lemma chain_inv (units : list string) (st : state E) :
  let r := for_each units (dispatch_unit E) st in
  filename (state_after r) = filename st /\
  (active st = false -> active (state_after r) = false) /\
  Forall (fun t => t = filename st) (targets (events r)).
Proof.
  revert st; induction units as [|u us IH]; intros st; simpl.
  - auto.
  - destruct (dispatch_unit_inv u st) as (Hf & Ha & Ht).
    unfold bind.
    destruct (dispatch_unit E u st) as [[[[]|e] st1] ev1];
      unfold state_after, events in *; simpl in *.
    + destruct (IH st1) as (Hf' & Ha' & Ht').
      destruct (for_each us (dispatch_unit E) st1) as [[r st2] ev2]; simpl in *.
      repeat split.
      * congruence.
      * auto.
      * rewrite targets_app. apply Forall_app; split; [exact Ht|].
        rewrite <- Hf; exact Ht'.
    + auto.
Qed.

(** A handler that raises an [Exception] is reported and the unit ends
    normally, without clearing the buffer. *)
Lemma guarded_command_raises (root cmd cls detail : string) (args : list string)
    (h : handler (Ext E)) (st : state E) :
  lookup root (commands E) = Some h ->
  raised (h args (filename st) (ext st) (cmd_output st)) = Some (Exception cls detail) ->
  catch (resolve E root args cmd) (on_exception E root) st =
  (inl tt,
   set_cmd_output E (new_output (h args (filename st) (ext st) (cmd_output st)))
     (set_ext E (new_ext (h args (filename st) (ext st) (cmd_output st))) st),
   [Invoke Builtin root args (filename st) (Some (Exception cls detail));
    PrintError ("The command " ++ bold E root ++ " raised an exception:");
    PrintExc (Exception cls detail)]).
Proof.
  intros Hl Hr. unfold catch, resolve; rewrite Hl.
  unfold bind, call_command; rewrite Hr; reflexivity.
Qed.

Lemma guarded_module_raises (root cmd cls detail : string) (args : list string)
    (h : handler (Ext E)) (st : state E) :
  lookup root (commands E) = None ->
  lookup root (modules E) = Some h ->
  raised (h args (filename st) (ext st) (mod_output st root)) = Some (Exception cls detail) ->
  catch (resolve E root args cmd) (on_exception E root) st =
  (inl tt,
   set_mod_output E root (new_output (h args (filename st) (ext st) (mod_output st root)))
     (set_ext E (new_ext (h args (filename st) (ext st) (mod_output st root))) st),
   [Invoke Module root args (filename st) (Some (Exception cls detail));
    PrintError ("The command " ++ bold E root ++ " raised an exception:");
    PrintExc (Exception cls detail)]).
Proof.
  intros Hc Hl Hr. unfold catch, resolve; rewrite Hc, Hl.
  unfold bind, run_module; rewrite Hr; reflexivity.
Qed.

(** A handler that returns is followed by the clearing of the buffer. *)
Lemma guarded_command_returns (root cmd : string) (args : list string)
    (h : handler (Ext E)) (st : state E) :
  lookup root (commands E) = Some h ->
  raised (h args (filename st) (ext st) (cmd_output st)) = None ->
  catch (resolve E root args cmd) (on_exception E root) st =
  (inl tt,
   set_cmd_output E []
     (set_cmd_output E (new_output (h args (filename st) (ext st) (cmd_output st)))
        (set_ext E (new_ext (h args (filename st) (ext st) (cmd_output st))) st)),
   [Invoke Builtin root args (filename st) None]).
Proof.
  intros Hl Hr. unfold catch, resolve; rewrite Hl.
  unfold bind, call_command; rewrite Hr; reflexivity.
Qed.

(** The unit that raises, within its chain. *)
Lemma unit_failure_isolated
    (before after : list string) (u root : string) (args : list string)
    (k : kind) (h : handler (Ext E)) (cls detail : string)
    (st st1 : state E) (ev1 : list event) :
  for_each before (dispatch_unit E) st = (inl tt, st1, ev1) ->
  split_ws (strip u) = root :: args ->
  is_termination root = false ->
  (k = Builtin /\ lookup root (commands E) = Some h /\
   raised (h args (filename st1) (ext st1) (cmd_output st1))
     = Some (Exception cls detail))
  \/
  (k = Module /\ lookup root (commands E) = None /\
   lookup root (modules E) = Some h /\
   raised (h args (filename st1) (ext st1) (mod_output st1 root))
     = Some (Exception cls detail)) ->
  let r := dispatch_unit E u st1 in
  let rest := for_each after (dispatch_unit E) (state_after r) in
  outcome r = inl tt /\
  events r = [Invoke k root args (filename st1) (Some (Exception cls detail));
              PrintError ("The command " ++ bold E root ++ " raised an exception:");
              PrintExc (Exception cls detail)] /\
  active (state_after r) = active st1 /\
  for_each (before ++ u :: after) (dispatch_unit E) st =
    (outcome rest, state_after rest, ev1 ++ events r ++ events rest).
Proof.
  intros Hbefore Hparse Hterm Hraise r rest.
  assert (Hr : exists st2,
             active st2 = active st1 /\
             r = (inl tt, st2,
                  [Invoke k root args (filename st1) (Some (Exception cls detail));
                   PrintError ("The command " ++ bold E root ++ " raised an exception:");
                   PrintExc (Exception cls detail)])).
  { subst r. rewrite (dispatch_unit_parsed u root args st1 Hparse), Hterm.
    destruct Hraise as [(-> & Hl & Hx)|(-> & Hc & Hl & Hx)].
    - rewrite (guarded_command_raises _ _ _ _ _ _ _ Hl Hx).
      eexists; split; [|reflexivity]; reflexivity.
    - rewrite (guarded_module_raises _ _ _ _ _ _ _ Hc Hl Hx).
      eexists; split; [|reflexivity]; reflexivity. }
  destruct Hr as (st2 & Hact & Hr).
  subst rest. rewrite Hr. unfold outcome, state_after, events; simpl.
  repeat split; [exact Hact|].
  rewrite for_each_app. unfold bind at 1. rewrite Hbefore.
  simpl for_each. unfold bind. fold r. rewrite Hr.
  destruct (for_each after (dispatch_unit E) st2) as [[o st3] ev3]; reflexivity.
Qed.

(** When no handler raises anything but an [Exception] or a
    [KeyboardInterrupt], no chain raises: every unit of it is dispatched. *)
Lemma chain_completes (units : list string) (st : state E) :
  (forall root h args t x o cls,
     lookup root (commands E) = Some h \/ lookup root (modules E) = Some h ->
     raised (h args t x o) <> Some (BaseException cls)) ->
  outcome (for_each units (dispatch_unit E) st) = inl tt.
Proof.
  intros Hsafe. revert st; induction units as [|u us IH]; intros st;
    [reflexivity|].
  assert (Hu : outcome (dispatch_unit E u st) = inl tt).
  { destruct (dispatch_unit_cases u) as [Hb|(root & args & Hp)].
    - rewrite (dispatch_unit_blank u st Hb); reflexivity.
    - rewrite (dispatch_unit_parsed u root args st Hp).
      destruct (is_termination root); [reflexivity|].
      unfold catch, resolve.
      destruct (lookup root (commands E)) as [h|] eqn:Hc.
      + unfold bind, call_command, modify, on_exception, emit, ret, raise.
        pose proof (Hsafe root h args (filename st) (ext st) (cmd_output st)) as Hs.
        destruct (raised (h args (filename st) (ext st) (cmd_output st)))
          as [[cls d| |cls]|]; try reflexivity.
        exfalso; apply (Hs cls); auto.
      + destruct (lookup root (modules E)) as [h|] eqn:Hm; [|reflexivity].
        unfold bind, run_module, get, persist, modify, on_exception, emit, ret, raise.
        pose proof (Hsafe root h args (filename st) (ext st) (mod_output st root))
          as Hs.
        destruct (raised (h args (filename st) (ext st) (mod_output st root)))
          as [[cls d| |cls]|]; try reflexivity.
        * exfalso; apply (Hs cls); auto.
        * simpl. destruct (store_output E && is_set E _);
        try destruct (current_file_path E _); reflexivity. }
  simpl for_each. unfold bind.
  destruct (dispatch_unit E u st) as [[[[]|e] st1] ev1];
    unfold outcome in Hu; simpl in Hu; [|discriminate].
  specialize (IH st1).
  destruct (for_each us (dispatch_unit E) st1) as [[o st2] ev2]; exact IH.
Qed.

End Dispatch.

(** ** Keyword substitution *)

Section Keywords.

Variable E : Env.

Lemma self_nonempty : "$self" <> "".
Proof. discriminate. Qed.

Lemma keywords_absent (data : string) (st : state E) :
  contains "$self" data = false ->
  keywords E data st = (inl (Some data), st, []).
Proof. intros H; unfold keywords; rewrite H; reflexivity. Qed.

Lemma keywords_no_session (data : string) (st : state E) :
  contains "$self" data = true -> is_set E (ext st) = false ->
  keywords E data st = (inl None, st, [Print "No open session"]).
Proof.
  intros H Hs; unfold keywords; rewrite H.
  unfold bind, get; rewrite Hs; reflexivity.
Qed.

Lemma keywords_session (data path : string) (st : state E) :
  contains "$self" data = true -> is_set E (ext st) = true ->
  current_file_path E (ext st) = Some path ->
  keywords E data st = (inl (Some (replace "$self" path data)), st, []).
Proof.
  intros H Hs Hp; unfold keywords; rewrite H.
  unfold bind, get; rewrite Hs, Hp; reflexivity.
Qed.

(** X22. A line with [$self] and no session yields the notice and the
    value [None], and the loop does nothing else with it; with a session
    on an artifact the line is cut at the occurrences of [$self] into
    pieces free of it and the path is put between them; a line without
    [$self] is returned as it is. *)
Theorem keywords_cases (data : string) (st : state E) :
  (contains "$self" data = true -> is_set E (ext st) = false ->
   keywords E data st = (inl None, st, [Print "No open session"]) /\
   process_line E data st = (inl tt, st, [Print "No open session"])) /\
  (forall path,
   contains "$self" data = true -> is_set E (ext st) = true ->
   current_file_path E (ext st) = Some path ->
   keywords E data st = (inl (Some (join path (pieces "$self" data))), st, []) /\
   join "$self" (pieces "$self" data) = data /\
   Forall (fun p => contains "$self" p = false) (pieces "$self" data)) /\
  (contains "$self" data = false ->
   keywords E data st = (inl (Some data), st, [])).
Proof.
  split; [|split].
  - intros H Hs. pose proof (keywords_no_session data st H Hs) as Hk.
    split; [exact Hk|].
    unfold process_line, bind; rewrite Hk; reflexivity.
  - intros path H Hs Hp.
    destruct (replace_spec "$self" path data self_nonempty) as (Hj & Hc & Hr).
    rewrite <- Hr. auto using keywords_session.
  - apply keywords_absent.
Qed.

End Keywords.

(** ** The main loop *)

Section MainLoop.

Variable E : Env.

Lemma is_termination_keyword (root : string) :
  root = "exit" \/ root = "quit" -> is_termination root = true.
Proof. intros [->| ->]; reflexivity. Qed.

Lemma start_inactive (inputs : list input) (st : state E) :
  active st = false -> start E inputs st = mkRun E Stopped st [] inputs.
Proof. intros H; destruct inputs; simpl; rewrite H; reflexivity. Qed.

(** C7. A unit whose first word is [exit] or [quit] only clears the
    active flag: no event is emitted and the next unit of the line is
    dispatched from that state; the flag is still cleared when the line
    has been processed; and a loop whose flag is cleared stops without
    consuming any input. *)
Theorem C7_termination :
  (forall (u root : string) (args after : list string) (st : state E),
     split_ws (strip u) = root :: args -> root = "exit" \/ root = "quit" ->
     dispatch_unit E u st = (inl tt, set_active E false st, []) /\
     for_each (u :: after) (dispatch_unit E) st =
       for_each after (dispatch_unit E) (set_active E false st)) /\
  (forall (before after : list string) (u root : string) (args : list string)
          (st : state E),
     split_ws (strip u) = root :: args -> root = "exit" \/ root = "quit" ->
     let r := for_each (before ++ u :: after) (dispatch_unit E) st in
     outcome r = inl tt -> active (state_after r) = false) /\
  (forall (inputs : list input) (st : state E),
     active st = false -> start E inputs st = mkRun E Stopped st [] inputs) /\
  (forall (i : input) (rest : list input) (st : state E),
     active st = true ->
     let r := iteration E i st in
     outcome r = inl tt -> active (state_after r) = false ->
     start E (i :: rest) st = mkRun E Stopped (state_after r) (events r) rest).
Proof.
  assert (Hunit : forall (u root : string) (args : list string) (st : state E),
             split_ws (strip u) = root :: args -> root = "exit" \/ root = "quit" ->
             dispatch_unit E u st = (inl tt, set_active E false st, [])).
  { intros u root args st Hp Hk.
    rewrite (dispatch_unit_parsed E u root args st Hp).
    rewrite (is_termination_keyword root Hk); reflexivity. }
  split; [|split; [|split]].
  - intros u root args after st Hp Hk. split; [eauto|].
    simpl. unfold bind. rewrite (Hunit u root args st Hp Hk).
    destruct (for_each after (dispatch_unit E) (set_active E false st))
      as [[o st'] ev]; reflexivity.
  - intros before after u root args st Hp Hk r. subst r.
    rewrite for_each_app. simpl for_each. unfold bind.
    destruct (for_each before (dispatch_unit E) st) as [[[[]|e] st1] ev1];
      [|discriminate].
    rewrite (Hunit u root args st1 Hp Hk).
    pose proof (chain_inv E after (set_active E false st1)) as (_ & Ha & _).
    destruct (for_each after (dispatch_unit E) (set_active E false st1))
      as [[o st2] ev2].
    intros _. apply Ha; reflexivity.
  - apply start_inactive.
  - intros i rest st Hact r. subst r. simpl. rewrite Hact.
    destruct (iteration E i st) as [[[[]|e] st1] ev1];
      unfold outcome, state_after, events; simpl; [|discriminate].
    intros _ Hst1. rewrite (start_inactive rest st1 Hst1); simpl.
    rewrite app_nil_r; reflexivity.
Qed.

End MainLoop.

(** ** Redirection and the processing of one line *)

Section Line.

Variable E : Env.

Lemma redirect_absent (data : string) (st : state E) :
  contains_char ">" data = false -> redirect E data st = (inl data, st, []).
Proof. intros H; unfold redirect; rewrite H; reflexivity. Qed.

Lemma redirect_present (data : string) (st : state E) :
  contains_char ">" data = true ->
  redirect E data st =
  match split ">" data with
  | [cmd; fname] =>
      (inl cmd, set_filename E (Some fname) st,
       [Print ("Writing output to " ++ strip fname)])
  | _ => (inr (Exception "ValueError" "too many values to unpack (expected 2)"), st, [])
  end.
Proof.
  intros H; unfold redirect; rewrite H.
  destruct (split ">" data) as [|cmd [|fname [|x l]]]; reflexivity.
Qed.

Lemma redirect_single (cmd fname : string) (st : state E) :
  contains_char ">" cmd = false -> contains_char ">" fname = false ->
  redirect E (cmd ++ ">" ++ fname) st =
  (inl cmd, set_filename E (Some fname) st,
   [Print ("Writing output to " ++ strip fname)]).
Proof.
  intros Hc Hf. rewrite redirect_present.
  - change (">" ++ fname)%string with (String ">" fname).
    rewrite (split_app _ _ _ Hc), (split_clean _ _ Hf); reflexivity.
  - rewrite contains_char_app; simpl. apply orb_true_r.
Qed.

(** The calls made while a line is executed all see the target that
    [redirect] leaves. *)
Lemma execute_targets (data : string) (st : state E) :
  Forall (fun t => t = filename (state_after (redirect E data st)))
         (targets (events (execute E data st))).
Proof.
  unfold execute, bind.
  destruct (redirect E data st) as [[[d|e] st1] ev1] eqn:Hr;
    unfold state_after, events; simpl.
  - assert (Hev : targets ev1 = []).
    { unfold redirect in Hr. destruct (contains_char ">" data).
      - destruct (split ">" data) as [|c [|f [|x l]]]; inversion Hr; reflexivity.
      - inversion Hr; reflexivity. }
    destruct (startswith "!" d).
    + simpl. rewrite targets_app, Hev; simpl. constructor.
    + pose proof (chain_inv E (split ";" d) st1) as (_ & _ & Ht).
      destruct (for_each (split ";" d) (dispatch_unit E) st1)
        as [[[[]|e] st2] ev2]; unfold events in Ht; simpl in *;
        rewrite ?app_nil_r, targets_app, Hev; exact Ht.
  - unfold redirect in Hr. destruct (contains_char ">" data).
    + destruct (split ">" data) as [|c [|f [|x l]]]; inversion Hr; constructor.
    + inversion Hr.
Qed.

(** C5, as the code has it. A line with exactly one [>] is split at it:
    the part before it is the command part, the part after it is stored,
    as written, as the redirect target, which every call made for the line
    sees, and the notice names the trimmed part. A line without [>] leaves
    the target as it was. *)
Theorem C5_redirect (cmd fname line : string) (st : state E) :
  contains_char ">" cmd = false -> contains_char ">" fname = false ->
  contains_char ">" line = false ->
  redirect E (cmd ++ ">" ++ fname) st =
    (inl cmd, set_filename E (Some fname) st,
     [Print ("Writing output to " ++ strip fname)]) /\
  Forall (fun t => t = Some fname)
         (targets (events (execute E (cmd ++ ">" ++ fname) st))) /\
  redirect E line st = (inl line, st, []) /\
  Forall (fun t => t = filename st) (targets (events (execute E line st))).
Proof.
  intros Hc Hf Hl.
  pose proof (redirect_single cmd fname st Hc Hf) as Hr.
  pose proof (redirect_absent line st Hl) as Hn.
  split; [exact Hr|]. split; [|split; [exact Hn|]].
  - pose proof (execute_targets (cmd ++ ">" ++ fname) st) as Ht.
    rewrite Hr in Ht; exact Ht.
  - pose proof (execute_targets line st) as Ht.
    rewrite Hn in Ht; exact Ht.
Qed.

(** A line with two or more [>] makes the tuple assignment raise. *)
Lemma redirect_many (a b c : string) (st : state E) :
  contains_char ">" a = false ->
  redirect E (a ++ ">" ++ b ++ ">" ++ c) st =
  (inr (Exception "ValueError" "too many values to unpack (expected 2)"), st, []).
Proof.
  intros Ha. rewrite redirect_present.
  - change (">" ++ b ++ ">" ++ c)%string with (String ">" (b ++ ">" ++ c)).
    rewrite (split_app _ _ _ Ha).
    assert (Hlen : 2 <= List.length (split ">" (b ++ ">" ++ c))).
    { apply split_length. rewrite contains_char_app; simpl. apply orb_true_r. }
    destruct (split ">" (b ++ ">" ++ c)) as [|x [|y l]]; simpl in Hlen;
      [lia|lia|reflexivity].
  - rewrite contains_char_app; simpl. apply orb_true_r.
Qed.

End Line.

(** ** Failure isolation *)

Section Isolation.

Variable E : Env.

(** The chain of the design document, whatever the three handlers do
    besides returning or raising. *)
Lemma chain_of_three (hA hB hC : handler (Ext E)) (cls detail : string)
    (st : state E) :
  lookup "cmdA" (commands E) = Some hA ->
  lookup "badCmd" (commands E) = Some hB ->
  lookup "cmdC" (commands E) = Some hC ->
  (forall args t x o, raised (hA args t x o) = None) ->
  (forall args t x o, raised (hB args t x o) = Some (Exception cls detail)) ->
  (forall args t x o, raised (hC args t x o) = None) ->
  let r := process_line E "cmdA; badCmd; cmdC" st in
  outcome r = inl tt /\
  active (state_after r) = active st /\
  events r = [Invoke Builtin "cmdA" [] (filename st) None;
              Invoke Builtin "badCmd" [] (filename st) (Some (Exception cls detail));
              PrintError ("The command " ++ bold E "badCmd" ++ " raised an exception:");
              PrintExc (Exception cls detail);
              Invoke Builtin "cmdC" [] (filename st) None].
Proof.
  intros HA HB HC HrA HrB HrC r.
  assert (Hchain : exists st', active st' = active st /\
            for_each ["cmdA"; " badCmd"; " cmdC"] (dispatch_unit E) st =
            (inl tt, st',
             [Invoke Builtin "cmdA" [] (filename st) None;
              Invoke Builtin "badCmd" [] (filename st) (Some (Exception cls detail));
              PrintError ("The command " ++ bold E "badCmd" ++ " raised an exception:");
              PrintExc (Exception cls detail);
              Invoke Builtin "cmdC" [] (filename st) None])).
  { cbn [for_each]. unfold bind.
    rewrite (dispatch_unit_parsed E "cmdA" "cmdA" [] st eq_refl).
    change (is_termination "cmdA") with false. cbv iota.
    rewrite (guarded_command_returns E _ _ _ _ _ HA (HrA _ _ _ _)).
    rewrite (dispatch_unit_parsed E " badCmd" "badCmd" [] _ eq_refl).
    change (is_termination "badCmd") with false. cbv iota.
    rewrite (guarded_command_raises E _ _ _ _ _ _ _ HB (HrB _ _ _ _)).
    rewrite (dispatch_unit_parsed E " cmdC" "cmdC" [] _ eq_refl).
    change (is_termination "cmdC") with false. cbv iota.
    rewrite (guarded_command_returns E _ _ _ _ _ HC (HrC _ _ _ _)).
    eexists; split; [|reflexivity]. reflexivity. }
  destruct Hchain as (st' & Hact & Hchain).
  subst r. unfold process_line, bind. rewrite keywords_absent by reflexivity.
  unfold execute, bind. rewrite redirect_absent by reflexivity.
  change (startswith "!" "cmdA; badCmd; cmdC") with false.
  change (split ";" "cmdA; badCmd; cmdC") with ["cmdA"; " badCmd"; " cmdC"].
  cbv beta iota. rewrite Hchain.
  unfold outcome, state_after, events; simpl. auto.
Qed.

(** C1. When the handler or module of a chain unit raises an error, the
    unit ends normally after a report made of the command name and the
    exception, the active flag is unchanged, and the units that follow it
    on the line are dispatched in order from the state it leaves. On the
    line ["cmdA; badCmd; cmdC"], where only [badCmd] raises, the trace is
    the call of [cmdA], the call of [badCmd] with its report, and the call
    of [cmdC]. *)
Theorem C1_failure_isolation :
  (forall (before after : list string) (u root : string) (args : list string)
          (k : kind) (h : handler (Ext E)) (cls detail : string)
          (st st1 : state E) (ev1 : list event),
     for_each before (dispatch_unit E) st = (inl tt, st1, ev1) ->
     split_ws (strip u) = root :: args ->
     is_termination root = false ->
     (k = Builtin /\ lookup root (commands E) = Some h /\
      raised (h args (filename st1) (ext st1) (cmd_output st1))
        = Some (Exception cls detail))
     \/
     (k = Module /\ lookup root (commands E) = None /\
      lookup root (modules E) = Some h /\
      raised (h args (filename st1) (ext st1) (mod_output st1 root))
        = Some (Exception cls detail)) ->
     let r := dispatch_unit E u st1 in
     let rest := for_each after (dispatch_unit E) (state_after r) in
     outcome r = inl tt /\
     events r = [Invoke k root args (filename st1) (Some (Exception cls detail));
                 PrintError ("The command " ++ bold E root ++ " raised an exception:");
                 PrintExc (Exception cls detail)] /\
     active (state_after r) = active st1 /\
     for_each (before ++ u :: after) (dispatch_unit E) st =
       (outcome rest, state_after rest, ev1 ++ events r ++ events rest)) /\
  (forall (hA hB hC : handler (Ext E)) (cls detail : string) (st : state E),
     lookup "cmdA" (commands E) = Some hA ->
     lookup "badCmd" (commands E) = Some hB ->
     lookup "cmdC" (commands E) = Some hC ->
     (forall args t x o, raised (hA args t x o) = None) ->
     (forall args t x o, raised (hB args t x o) = Some (Exception cls detail)) ->
     (forall args t x o, raised (hC args t x o) = None) ->
     let r := process_line E "cmdA; badCmd; cmdC" st in
     outcome r = inl tt /\
     active (state_after r) = active st /\
     events r = [Invoke Builtin "cmdA" [] (filename st) None;
                 Invoke Builtin "badCmd" [] (filename st)
                        (Some (Exception cls detail));
                 PrintError ("The command " ++ bold E "badCmd"
                             ++ " raised an exception:");
                 PrintExc (Exception cls detail);
                 Invoke Builtin "cmdC" [] (filename st) None]).
Proof.
  split; [exact (unit_failure_isolated E)|exact chain_of_three].
Qed.

End Isolation.

(** ** The shell escape *)

Section ShellEscape.

Variable E : Env.

Lemma startswith_bang (rest : string) : startswith "!" (String "!" rest) = true.
Proof. unfold startswith; simpl. destruct rest; reflexivity. Qed.

Lemma replace_bang (path rest : string) :
  replace "$self" path (String "!" rest) = String "!" (replace "$self" path rest).
Proof. reflexivity. Qed.

Lemma execute_bang (rest : string) (st : state E) :
  contains_char ">" rest = false ->
  execute E (String "!" rest) st = (inl tt, st, [System rest]).
Proof.
  intros H. unfold execute, bind.
  rewrite redirect_absent by (simpl; exact H).
  rewrite startswith_bang; reflexivity.
Qed.

(** C4, as the code has it. Keyword substitution is applied before the
    test for the shell escape. For a line that begins with [!] and has no
    [>] once substituted: without [$self], the remainder is passed as it
    is to the system command; with [$self] and a session on an artifact,
    the remainder with the path substituted is passed; with [$self] and no
    session, the line is discarded. Nothing is dispatched and the state is
    unchanged in the three cases. *)
Theorem C4_shell_escape (rest : string) (st : state E) :
  (contains "$self" rest = false -> contains_char ">" rest = false ->
   process_line E (String "!" rest) st = (inl tt, st, [System rest])) /\
  (forall path,
   contains "$self" rest = true -> is_set E (ext st) = true ->
   current_file_path E (ext st) = Some path ->
   contains_char ">" (replace "$self" path rest) = false ->
   process_line E (String "!" rest) st =
     (inl tt, st, [System (replace "$self" path rest)])) /\
  (contains "$self" rest = true -> is_set E (ext st) = false ->
   process_line E (String "!" rest) st = (inl tt, st, [Print "No open session"])).
Proof.
  assert (Hin : contains "$self" (String "!" rest) = contains "$self" rest)
    by reflexivity.
  split; [|split].
  - intros Hs Hr. unfold process_line, bind.
    rewrite keywords_absent by (rewrite Hin; exact Hs).
    rewrite (execute_bang rest st Hr); reflexivity.
  - intros path Hs Hset Hp Hr. unfold process_line, bind.
    rewrite (keywords_session E _ path st) by (rewrite ?Hin; assumption).
    rewrite replace_bang, (execute_bang _ st Hr); reflexivity.
  - intros Hs Hset. unfold process_line, bind.
    rewrite keywords_no_session by (rewrite ?Hin; assumption).
    reflexivity.
Qed.

End ShellEscape.

(** ** Substitution comes first *)

Section Order.

Variable E : Env.


End Order.

(** ** Output buffers *)

Section Buffers.

Variable E : Env.

(** C9, as the code has it. When the handler of a built-in command, or
    the run of a module, returns normally, its output buffer is empty when
    the unit ends; when it raises, the statement that clears the buffer is
    skipped and the buffer is left as the call left it. *)
Theorem C9_buffer_cleared (u root : string) (args : list string)
    (h : handler (Ext E)) (st : state E) :
  split_ws (strip u) = root :: args -> is_termination root = false ->
  let r := dispatch_unit E u st in
  (lookup root (commands E) = Some h ->
   let call := h args (filename st) (ext st) (cmd_output st) in
   (raised call = None ->
    outcome r = inl tt /\ cmd_output (state_after r) = []) /\
   (raised call <> None ->
    cmd_output (state_after r) = new_output call)) /\
  (lookup root (commands E) = None -> lookup root (modules E) = Some h ->
   let call := h args (filename st) (ext st) (mod_output st root) in
   (raised call = None ->
    outcome r = inl tt /\ mod_output (state_after r) root = []) /\
   (raised call <> None ->
    mod_output (state_after r) root = new_output call)).
Proof.
  intros Hp Ht r. subst r.
  rewrite (dispatch_unit_parsed E u root args st Hp), Ht.
  unfold catch, resolve. split.
  - intros Hl. rewrite Hl.
    unfold bind, call_command, modify, on_exception, emit, ret, raise.
    destruct (raised (h args (filename st) (ext st) (cmd_output st)))
      as [[cls d| |cls]|]; unfold outcome, state_after; simpl;
      (split; [intros H; try discriminate; auto|intros H; try reflexivity; congruence]).
  - intros Hc Hl. rewrite Hc, Hl.
    unfold bind, run_module, get, persist, modify, on_exception, emit, ret, raise.
    destruct (raised (h args (filename st) (ext st) (mod_output st root)))
      as [[cls d| |cls]|]; unfold outcome, state_after; simpl;
      try (rewrite String.eqb_refl;
           split; [intros H; discriminate|intros H; reflexivity]).
    destruct (store_output E && is_set E _);
        try destruct (current_file_path E _); simpl; rewrite String.eqb_refl;
      (split; [auto|congruence]).
Qed.

End Buffers.

(** ** Completion *)

Section Completion.

Variable E : Env.

(** Below the number of matching names, [complete] returns the name at
    that index. *)
Lemma complete_names (text : string) (state : nat) :
  let completions :=
    filter (startswith text) (map fst (commands E)) ++
    filter (startswith text) (map fst (modules E)) in
  state < List.length completions ->
  complete E text state = inl (nth_error completions state).
Proof.
  intros completions H. unfold complete. fold completions.
  apply Nat.ltb_lt in H. rewrite H. reflexivity.
Qed.

(** From that number on, the list of paths is indexed by [state] itself,
    not by the position within the paths. *)
Lemma complete_paths (text : string) (state : nat) :
  let completions :=
    filter (startswith text) (map fst (commands E)) ++
    filter (startswith text) (map fst (modules E)) in
  let pattern :=
    ((if startswith "~" text then home E ++ tail text else text) ++ "*")%string in
  List.length completions <= state ->
  complete E text state =
  match nth_error (map Some (glob E pattern) ++ [None]) state with
  | Some r => inl r
  | None => inr (Exception "IndexError" "list index out of range")
  end.
Proof.
  intros completions pattern H. unfold complete. fold completions.
  apply Nat.ltb_ge in H. rewrite H. reflexivity.
Qed.

End Completion.

(** ** Where the code departs from the design document *)

(** C6. With a session that has no file, a line with [$self] makes
    [keywords] raise [AttributeError]: there is neither a notice nor a
    replacement, and the exception leaves the loop with the rest of the
    input unread. *)
Theorem C6_session_without_file (E : Env) (raw : string) (st : state E)
    (rest : list input) :
  contains "$self" (strip raw) = true ->
  is_set E (ext st) = true ->
  current_file_path E (ext st) = None ->
  active st = true ->
  keywords E (strip raw) st =
    (inr (Exception "AttributeError" "'NoneType' object has no attribute 'path'"),
     st, []) /\
  start E (Line raw :: rest) st =
    mkRun E (Crashed (Exception "AttributeError"
                                "'NoneType' object has no attribute 'path'"))
          st [] rest.
Proof.
  intros Hin Hset Hfile Hact.
  assert (Hk : keywords E (strip raw) st =
               (inr (Exception "AttributeError"
                               "'NoneType' object has no attribute 'path'"), st, [])).
  { unfold keywords. rewrite Hin. unfold bind, get. rewrite Hset, Hfile.
    reflexivity. }
  split; [exact Hk|].
  simpl. rewrite Hact. unfold process_line, bind. rewrite Hk. reflexivity.
Qed.

(** C2. The line [find > a > b] makes the loop end on an uncaught
    [ValueError]: the input that follows is never read. *)
Theorem C2_two_redirects_crash (E : Env) (st : state E) (rest : list input) :
  start E (Line "find > a > b" :: rest) (set_active E true st) =
  mkRun E (Crashed (Exception "ValueError" "too many values to unpack (expected 2)"))
        (set_active E true st) [] rest.
Proof. reflexivity. Qed.

(** C3. After the shell escape [!ls > out.txt] the redirect target is
    still set, and the command of the next line is called with it. *)
Theorem C3_target_survives_shell_escape (E : Env) (st : state E) :
  iteration E (Line "!ls > out.txt") st =
    (inl tt, set_filename E (Some " out.txt") st,
     [Print "Writing output to out.txt"; System "ls "]) /\
  trace (start Demo.env [Line "!ls > out.txt"; Line "cmdA"] (Demo.init None)) =
    [Print "Writing output to out.txt"; System "ls ";
     Invoke Builtin "cmdA" [] (Some " out.txt") None].
Proof. split; reflexivity. Qed.

(** C8. With the commands [find], [finish], the module [fileinfo] and one
    path matching [f*], the three names are returned at the indices 0 to
    2, and at index 3 the path is not offered: the list of paths is too
    short for that index. *)
Theorem C8_paths_indexed_by_state :
  complete Demo.fenv "f" 0 = inl (Some "find") /\
  complete Demo.fenv "f" 1 = inl (Some "finish") /\
  complete Demo.fenv "f" 2 = inl (Some "fileinfo") /\
  glob Demo.fenv "f*" = ["foo.txt"] /\
  complete Demo.fenv "f" 3 = inr (Exception "IndexError" "list index out of range").
Proof. repeat split; reflexivity. Qed.

(** C1 at the chain ["cmdA; badCmd; cmdC"] of the design document. *)
Lemma C1_failure_isolation_witness :
  let E := Demo.env in
  let st := Demo.init None in
  let r := dispatch_unit E " badCmd" (state_after (dispatch_unit E "cmdA" st)) in
  (outcome r = inl tt /\
   active (state_after r) = true /\
   events (for_each ["cmdA"; " badCmd"; " cmdC"] (dispatch_unit E) st) =
     [Invoke Builtin "cmdA" [] None None;
      Invoke Builtin "badCmd" [] None (Some (Exception "RuntimeError" "boom"));
      PrintError "The command badCmd raised an exception:";
      PrintExc (Exception "RuntimeError" "boom");
      Invoke Builtin "cmdC" [] None None]) /\
  events (process_line E "cmdA; badCmd; cmdC" st) =
    [Invoke Builtin "cmdA" [] None None;
     Invoke Builtin "badCmd" [] None (Some (Exception "RuntimeError" "boom"));
     PrintError "The command badCmd raised an exception:";
     PrintExc (Exception "RuntimeError" "boom");
     Invoke Builtin "cmdC" [] None None].
Proof.
  intros E st r. split.
  - pose proof (proj1 (C1_failure_isolation E)
                  ["cmdA"] [" cmdC"] " badCmd" "badCmd" []
                  Builtin Demo.badCmd "RuntimeError" "boom" st
                  (state_after (dispatch_unit E "cmdA" st))
                  (events (dispatch_unit E "cmdA" st))
                  eq_refl eq_refl eq_refl
                  (or_introl (conj eq_refl (conj eq_refl eq_refl))))
      as (Ho & _ & Ha & Hall).
    split; [exact Ho|].
    split; [exact Ha|].
    change (["cmdA"; " badCmd"; " cmdC"]) with (["cmdA"] ++ " badCmd" :: [" cmdC"]).
    rewrite Hall. reflexivity.
  - exact (proj2 (proj2 (proj2 (C1_failure_isolation E)
                           Demo.cmdA Demo.badCmd Demo.cmdC "RuntimeError" "boom" st
                           eq_refl eq_refl eq_refl
                           (fun _ _ _ _ => eq_refl) (fun _ _ _ _ => eq_refl)
                           (fun _ _ _ _ => eq_refl)))).
Defined.

(** X22 on three lines: without a session, with a session on
    [/tmp/sample], and without the marker. *)
Lemma keywords_cases_witness :
  process_line Demo.env "cat $self; cmdA" (Demo.init None)
    = (inl tt, Demo.init None, [Print "No open session"]) /\
  keywords Demo.env "cat $self $self.bak" (Demo.init (Some "/tmp/sample"))
    = (inl (Some "cat /tmp/sample /tmp/sample.bak"),
       Demo.init (Some "/tmp/sample"), []) /\
  keywords Demo.env "cmdA; cmdC" (Demo.init None)
    = (inl (Some "cmdA; cmdC"), Demo.init None, []).
Proof.
  split; [|split].
  - exact (proj2 (proj1 (keywords_cases Demo.env "cat $self; cmdA" (Demo.init None))
                    eq_refl eq_refl)).
  - exact (proj1 (proj1 (proj2 (keywords_cases Demo.env "cat $self $self.bak"
                                  (Demo.init (Some "/tmp/sample"))))
                    "/tmp/sample" eq_refl eq_refl eq_refl)).
  - exact (proj2 (proj2 (keywords_cases Demo.env "cmdA; cmdC" (Demo.init None)))
             eq_refl).
Defined.

(** C7 on the line ["cmdA; exit; cmdC"] followed by a line that is never
    read. *)
Lemma C7_termination_witness :
  let st := Demo.init None in
  dispatch_unit Demo.env " exit" st = (inl tt, set_active Demo.env false st, []) /\
  start Demo.env [Line "cmdA; exit; cmdC"; Line "cmdA"] st =
    mkRun Demo.env Stopped
      (state_after (iteration Demo.env (Line "cmdA; exit; cmdC") st))
      [Invoke Builtin "cmdA" [] None None; Invoke Builtin "cmdC" [] None None]
      [Line "cmdA"].
Proof.
  intros st. split.
  - exact (proj1 (proj1 (C7_termination Demo.env) " exit" "exit" [] [] st
                    eq_refl (or_introl eq_refl))).
  - exact (proj2 (proj2 (proj2 (C7_termination Demo.env)))
             (Line "cmdA; exit; cmdC") [Line "cmdA"] st eq_refl eq_refl eq_refl).
Defined.

(** C5 on the line of the design document. *)
Lemma C5_redirect_witness :
  redirect Demo.env "cmdA x > out.txt" (Demo.init None) =
    (inl "cmdA x ", set_filename Demo.env (Some " out.txt") (Demo.init None),
     [Print "Writing output to out.txt"]) /\
  redirect Demo.env "cmdA; pdf id" (Demo.init None) =
    (inl "cmdA; pdf id", Demo.init None, []).
Proof.
  pose proof (C5_redirect Demo.env "cmdA x " " out.txt" "cmdA; pdf id"
                (Demo.init None) eq_refl eq_refl eq_refl) as (H1 & _ & H2 & _).
  split; [exact H1|exact H2].
Defined.

(** The claim C5 asks for the trimmed file name as the target; the code
    stores the text after the [>] with its leading blank. *)
Lemma C5_counterexample :
  let r := redirect Demo.env "cmdA x > out.txt" (Demo.init None) in
  split ">" "cmdA x > out.txt" = ["cmdA x "; " out.txt"] /\
  filename (state_after r) = Some " out.txt" /\
  filename (state_after r) <> Some (strip " out.txt").
Proof.
  cbv zeta. split; [reflexivity|]. split; [reflexivity|].
  vm_compute. discriminate.
Qed.

(** C4 on a line without the marker and on a line with it. *)
Lemma C4_shell_escape_witness :
  process_line Demo.env "!ls -l; id" (Demo.init None)
    = (inl tt, Demo.init None, [System "ls -l; id"]) /\
  process_line Demo.env "!file $self" (Demo.init (Some "/tmp/sample"))
    = (inl tt, Demo.init (Some "/tmp/sample"), [System "file /tmp/sample"]) /\
  process_line Demo.env "!file $self" (Demo.init None)
    = (inl tt, Demo.init None, [Print "No open session"]).
Proof.
  split; [|split].
  - exact (proj1 (C4_shell_escape Demo.env "ls -l; id" (Demo.init None))
             eq_refl eq_refl).
  - exact (proj1 (proj2 (C4_shell_escape Demo.env "file $self"
                           (Demo.init (Some "/tmp/sample"))))
             "/tmp/sample" eq_refl eq_refl eq_refl eq_refl).
  - exact (proj2 (proj2 (C4_shell_escape Demo.env "file $self" (Demo.init None)))
             eq_refl eq_refl).
Defined.

(** The claim C4 asks that the remainder of a line that begins with [!]
    reach the system command unmodified; with a session the marker in it
    is replaced first. *)
Lemma C4_counterexample :
  let raw := "!file $self" in
  let r := process_line Demo.env raw (Demo.init (Some "/tmp/sample")) in
  startswith "!" raw = true /\
  events r = [System "file /tmp/sample"] /\
  events r <> [System (tail raw)].
Proof.
  cbv zeta. split; [reflexivity|]. split; [reflexivity|].
  vm_compute. discriminate.
Qed.



(** C6 on the line [cat $self] typed in a session without file. *)
Lemma C6_session_without_file_witness :
  start Demo3.env [Line "cat $self"; Line "find"] (Demo3.init (Some None)) =
    mkRun Demo3.env
          (Crashed (Exception "AttributeError"
                              "'NoneType' object has no attribute 'path'"))
          (Demo3.init (Some None)) [] [Line "find"].
Proof.
  exact (proj2 (C6_session_without_file Demo3.env "cat $self" (Demo3.init (Some None))
                  [Line "find"] eq_refl eq_refl eq_refl eq_refl)).
Defined.

(** C9 on a command that returns and on one that raises. *)
Lemma C9_buffer_cleared_witness :
  cmd_output (state_after (dispatch_unit Demo.env "cmdA" (Demo.init None))) = [] /\
  cmd_output (state_after (dispatch_unit Demo.env "badCmd" (Demo.init None)))
    = ["partial"] /\
  mod_output (state_after (dispatch_unit Demo.env "pdf id" (Demo.init None))) "pdf" = [].
Proof.
  split; [|split].
  - exact (proj2 (proj1 (proj1 (C9_buffer_cleared Demo.env "cmdA" "cmdA" []
                                  Demo.cmdA (Demo.init None) eq_refl eq_refl)
                           eq_refl) eq_refl)).
  - refine (proj2 (proj1 (C9_buffer_cleared Demo.env "badCmd" "badCmd" []
                            Demo.badCmd (Demo.init None) eq_refl eq_refl)
                     eq_refl) _).
    discriminate.
  - exact (proj2 (proj1 (proj2 (C9_buffer_cleared Demo.env "pdf id" "pdf" ["id"]
                                  Demo.pdf (Demo.init None) eq_refl eq_refl)
                           eq_refl eq_refl) eq_refl)).
Defined.

(** The claim C9 asks for an empty buffer also after a handler that
    raises; the buffer of [badCmd] keeps what the handler wrote. *)
Lemma C9_counterexample :
  let r := process_line Demo.env "badCmd" (Demo.init None) in
  outcome r = inl tt /\
  cmd_output (state_after r) = ["partial"] /\
  cmd_output (state_after r) <> [].
Proof.
  cbv zeta. split; [reflexivity|]. split; [reflexivity|].
  vm_compute. discriminate.
Qed.

(** ** The examples of the design document *)

Example strip_example : strip "  find name  " = "find name".
Proof. reflexivity. Qed.

Example replace_example :
  replace "$self" "/tmp/x" "cat $self $self$selfish" = "cat /tmp/x /tmp/x/tmp/xish".
Proof. reflexivity. Qed.

Example pieces_example :
  pieces "$self" "cat $self $self$selfish" = ["cat "; " "; ""; "ish"].
Proof. reflexivity. Qed.

Example parse_example (E : Env) (st : state E) :
  parse E "find name *.pdf" st = (inl ("find", ["name"; "*.pdf"]), st, []).
Proof. reflexivity. Qed.

Example redirect_example :
  let r := process_line Demo.fenv "find name *.pdf; fileinfo id > out.txt"
                        (@mkState Demo.fenv true None None [] (fun _ => [])) in
  events r = [Print "Writing output to out.txt";
              Invoke Builtin "find" ["name"; "*.pdf"] (Some " out.txt") None;
              Invoke Module "fileinfo" ["id"] (Some " out.txt") None] /\
  filename (state_after r) = None.
Proof. split; reflexivity. Qed.

(** The redirect is detected on the whole line, before the chain is
    split: what follows the [>] is the target, [;] included. *)
Example redirect_before_chain_example :
  let r := process_line Demo.fenv "find name *.pdf > out.txt; fileinfo id"
                        (@mkState Demo.fenv true None None [] (fun _ => [])) in
  events r = [Print "Writing output to out.txt; fileinfo id";
              Invoke Builtin "find" ["name"; "*.pdf"]
                     (Some " out.txt; fileinfo id") None] /\
  filename (state_after r) = None.
Proof. split; reflexivity. Qed.

Example unknown_command_example :
  let r := process_line Demo.env "zzz" (Demo.init None) in
  events r = [Print "Command not recognized."] /\
  active (state_after r) = true.
Proof. split; reflexivity. Qed.

Example interrupt_and_eof_example :
  let r := start Demo.env [Interrupt; Line "   "; EOF; Line "cmdA"] (Demo.init None) in
  ending r = Stopped /\ trace r = [Print ""; Print ""] /\ unread r = [Line "cmdA"].
Proof. repeat split; reflexivity. Qed.

(** * Further properties of the console *)

(** ** [Console.parse] *)

Section ParseFacts.

Variable E : Env.

Lemma split_ws_lstrip (s : string) : split_ws (lstrip s) = split_ws s.
Proof.
  induction s as [|c s IH]; [reflexivity|].
  simpl. destruct (isspace c) eqn:Hc; [exact IH|].
  simpl. rewrite Hc. reflexivity.
Qed.

Lemma rstrip_cons_head (s r : string) (a : ascii) :
  rstrip s = String a r -> exists s', s = String a s'.
Proof.
  destruct s as [|c s]; simpl; [discriminate|].
  destruct (rstrip s); [destruct (isspace c); [discriminate|]|];
    intros H; injection H as -> _; eauto.
Qed.

Lemma split_ws_rstrip (s : string) : split_ws (rstrip s) = split_ws s.
Proof.
  induction s as [|c s IH]; [reflexivity|].
  change (rstrip (String c s))
    with (match rstrip s with
          | EmptyString => if isspace c then EmptyString else String c EmptyString
          | String a r => String c (String a r)
          end).
  destruct (rstrip s) as [|a r] eqn:Hr.
  - simpl in IH. destruct (isspace c) eqn:Hc.
    + simpl; rewrite Hc; exact IH.
    + simpl; rewrite Hc. destruct s as [|c' s']; [reflexivity|].
      rewrite <- IH. destruct (isspace c'); reflexivity.
  - destruct (rstrip_cons_head s r a Hr) as [s' ->].
    change (split_ws (String c (String a r)))
      with (if isspace c then split_ws (String a r)
            else if isspace a then String c EmptyString :: split_ws (String a r)
                 else match split_ws (String a r) with
                      | w :: ws => String c w :: ws
                      | [] => [String c EmptyString]
                      end).
    change (split_ws (String c (String a s')))
      with (if isspace c then split_ws (String a s')
            else if isspace a then String c EmptyString :: split_ws (String a s')
                 else match split_ws (String a s') with
                      | w :: ws => String c w :: ws
                      | [] => [String c EmptyString]
                      end).
    rewrite IH; reflexivity.
Qed.

Lemma split_ws_strip_eq (s : string) : split_ws (strip s) = split_ws s.
Proof. unfold strip. rewrite split_ws_rstrip, split_ws_lstrip; reflexivity. Qed.

Lemma split_ws_blank (s : string) : strip s = "" -> split_ws s = [].
Proof. intros H. rewrite <- split_ws_strip_eq, H; reflexivity. Qed.

(** X1. [parse] raises [IndexError] exactly on the strings without a word,
    and otherwise returns without touching the state. *)
Theorem parse_raises_iff_blank (data : string) (st : state E) :
  (strip data = "" ->
   parse E data st = (inr (Exception "IndexError" "list index out of range"), st, [])) /\
  (strip data <> "" ->
   exists root args, parse E data st = (inl (root, args), st, [])).
Proof.
  unfold parse. split.
  - intros H. rewrite (split_ws_blank data H); reflexivity.
  - intros H. destruct (split_ws_strip data H) as (root & args & Hw).
    rewrite split_ws_strip_eq in Hw. rewrite Hw.
    exists root, args; reflexivity.
Qed.

(** The words that [split] returns are non-empty and free of
    whitespace. *)
Lemma split_ws_words (s : string) :
  Forall (fun w => w <> "" /\ has_space w = false) (split_ws s).
Proof.
  induction s as [|c s IH]; [constructor|].
  change (split_ws (String c s))
    with (if isspace c then split_ws s
          else match s with
               | EmptyString => [String c EmptyString]
               | String c' _ =>
                   if isspace c' then String c EmptyString :: split_ws s
                   else match split_ws s with
                        | w :: ws => String c w :: ws
                        | [] => [String c EmptyString]
                        end
               end).
  destruct (isspace c) eqn:Hc; [exact IH|].
  assert (H1 : String c "" <> "" /\ has_space (String c "") = false)
    by (split; [discriminate|simpl; rewrite Hc; reflexivity]).
  destruct s as [|c' s']; [constructor; [exact H1|constructor]|].
  destruct (isspace c'); [constructor; assumption|].
  destruct (split_ws (String c' s')) as [|w ws];
    [constructor; [exact H1|constructor]|].
  constructor; [|exact (Forall_inv_tail IH)].
  destruct (Forall_inv IH) as [_ Hw].
  split; [discriminate|simpl; rewrite Hc; exact Hw].
Qed.

(** X2. The root and the arguments that [parse] returns are non-empty words
    without whitespace. *)
Theorem parse_words_clean (data root : string) (args : list string)
    (st st' : state E) (evs : list event) :
  parse E data st = (inl (root, args), st', evs) ->
  Forall (fun w => w <> "" /\ has_space w = false) (root :: args).
Proof.
  unfold parse. pose proof (split_ws_words data) as H.
  destruct (split_ws data) as [|r a]; [discriminate|].
  intros Heq; inversion Heq; subst; exact H.
Qed.

Lemma split_ws_word_app (w t : string) :
  w <> "" -> has_space w = false ->
  split_ws (w ++ String " " t) = w :: split_ws t.
Proof.
  induction w as [|c w IH]; [congruence|].
  intros _ Hs. simpl in Hs. apply orb_false_iff in Hs as [Hc Hw].
  destruct w as [|c' w'].
  - simpl. rewrite Hc. reflexivity.
  - assert (Hc' : isspace c' = false)
      by (simpl in Hw; apply orb_false_iff in Hw; tauto).
    specialize (IH ltac:(discriminate) Hw).
    change (split_ws ((String c (String c' w') ++ String " " t)%string))
      with (if isspace c then split_ws (String c' w' ++ String " " t)
            else if isspace c'
                 then String c EmptyString :: split_ws (String c' w' ++ String " " t)
                 else match split_ws (String c' w' ++ String " " t) with
                      | x :: xs => String c x :: xs
                      | [] => [String c EmptyString]
                      end).
    rewrite Hc, Hc', IH. reflexivity.
Qed.

Lemma split_ws_word (w : string) :
  w <> "" -> has_space w = false -> split_ws w = [w].
Proof.
  induction w as [|c w IH]; [congruence|].
  intros _ Hs. simpl in Hs. apply orb_false_iff in Hs as [Hc Hw].
  destruct w as [|c' w'].
  - simpl. rewrite Hc. reflexivity.
  - assert (Hc' : isspace c' = false)
      by (simpl in Hw; apply orb_false_iff in Hw; tauto).
    specialize (IH ltac:(discriminate) Hw).
    change (split_ws (String c (String c' w')))
      with (if isspace c then split_ws (String c' w')
            else if isspace c'
                 then String c EmptyString :: split_ws (String c' w')
                 else match split_ws (String c' w') with
                      | x :: xs => String c x :: xs
                      | [] => [String c EmptyString]
                      end).
    rewrite Hc, Hc', IH. reflexivity.
Qed.

Lemma split_ws_join (ws : list string) :
  Forall (fun w => w <> "" /\ has_space w = false) ws ->
  split_ws (join " " ws) = ws.
Proof.
  induction ws as [|w ws IH]; [reflexivity|].
  intros H. destruct (Forall_inv H) as [Hne Hs].
  specialize (IH (Forall_inv_tail H)).
  destruct ws as [|w2 ws]; [apply split_ws_word; assumption|].
  change (join " " (w :: w2 :: ws)) with (w ++ String " " (join " " (w2 :: ws)))%string.
  rewrite (split_ws_word_app _ _ Hne Hs), IH; reflexivity.
Qed.

(** X3. Parsing a root and arguments written with one blank between them
    gives them back. *)
Theorem parse_join (root : string) (args : list string) (st : state E) :
  Forall (fun w => w <> "" /\ has_space w = false) (root :: args) ->
  parse E (join " " (root :: args)) st = (inl (root, args), st, []).
Proof.
  intros H. unfold parse. rewrite (split_ws_join _ H). reflexivity.
Qed.

(** X4. Blanks around the text do not change what [parse] returns. *)
Theorem parse_strip (data : string) (st : state E) :
  parse E (strip data) st = parse E data st.
Proof. unfold parse. rewrite split_ws_strip_eq. reflexivity. Qed.

End ParseFacts.

(** ** The dispatch of one chain unit *)

Section UnitFacts.

Variable E : Env.

Lemma lstrip_fixed (s : string) :
  (forall c r, s = String c r -> isspace c = false) -> lstrip s = s.
Proof.
  destruct s as [|c r]; [reflexivity|].
  intros H. simpl. rewrite (H c r eq_refl). reflexivity.
Qed.

Lemma rstrip_idem (s : string) : rstrip (rstrip s) = rstrip s.
Proof.
  induction s as [|c s IH]; [reflexivity|].
  change (rstrip (String c s))
    with (match rstrip s with
          | EmptyString => if isspace c then EmptyString else String c EmptyString
          | String a r => String c (String a r)
          end).
  destruct (rstrip s) as [|a r] eqn:Hr.
  - destruct (isspace c) eqn:Hc; [reflexivity|]. simpl. rewrite Hc. reflexivity.
  - change (rstrip (String c (String a r)))
      with (match rstrip (String a r) with
            | EmptyString => if isspace c then EmptyString else String c EmptyString
            | String a' r' => String c (String a' r')
            end).
    rewrite IH. reflexivity.
Qed.

Lemma strip_idem (s : string) : strip (strip s) = strip s.
Proof.
  unfold strip at 1.
  rewrite (lstrip_fixed (strip s)).
  - unfold strip. apply rstrip_idem.
  - intros c r H. exact (strip_head s r c H).
Qed.

(** X5. Blanks around a chain unit do not change its dispatch. *)
Theorem dispatch_unit_strip (u : string) (st : state E) :
  dispatch_unit E (strip u) st = dispatch_unit E u st.
Proof. unfold dispatch_unit. rewrite strip_idem. reflexivity. Qed.

(** X6. A root that is neither a termination keyword, nor a command, nor a
    module only produces the notice: the state is left as it was. *)
Theorem unknown_command (u root : string) (args : list string) (st : state E) :
  split_ws (strip u) = root :: args ->
  is_termination root = false ->
  lookup root (commands E) = None ->
  lookup root (modules E) = None ->
  dispatch_unit E u st = (inl tt, st, [Print "Command not recognized."]).
Proof.
  intros Hp Ht Hc Hm.
  rewrite (dispatch_unit_parsed E u root args st Hp), Ht.
  unfold catch, resolve. rewrite Hc, Hm. reflexivity.
Qed.

(** X7. A name that is both a command and a module runs the command: the
    module is not called and its buffer is not touched, whatever the
    command does. *)
Theorem builtin_shadows_module (u root : string) (args : list string)
    (h : handler (Ext E)) (st : state E) :
  split_ws (strip u) = root :: args ->
  is_termination root = false ->
  lookup root (commands E) = Some h ->
  let r := dispatch_unit E u st in
  calls (events r) = [(Builtin, root)] /\
  (forall name, mod_output (state_after r) name = mod_output st name).
Proof.
  intros Hp Ht Hc r. subst r.
  rewrite (dispatch_unit_parsed E u root args st Hp), Ht.
  unfold catch, resolve. rewrite Hc.
  unfold bind, call_command, modify, on_exception, emit, ret, raise.
  destruct (raised (h args (filename st) (ext st) (cmd_output st)))
    as [[cls d| |cls]|]; unfold state_after, events; simpl; auto.
Qed.

(** X8. A [KeyboardInterrupt] raised by a command or a module ends the unit
    without any report; the buffer is left as the call left it. *)
Theorem interrupt_swallowed (u root : string) (args : list string) (k : kind)
    (h : handler (Ext E)) (st : state E) :
  split_ws (strip u) = root :: args ->
  is_termination root = false ->
  (k = Builtin /\ lookup root (commands E) = Some h /\
   raised (h args (filename st) (ext st) (cmd_output st)) = Some KeyboardInterrupt)
  \/
  (k = Module /\ lookup root (commands E) = None /\
   lookup root (modules E) = Some h /\
   raised (h args (filename st) (ext st) (mod_output st root)) = Some KeyboardInterrupt) ->
  let r := dispatch_unit E u st in
  outcome r = inl tt /\
  events r = [Invoke k root args (filename st) (Some KeyboardInterrupt)] /\
  active (state_after r) = active st /\
  filename (state_after r) = filename st.
Proof.
  intros Hp Ht H r. subst r.
  rewrite (dispatch_unit_parsed E u root args st Hp), Ht.
  unfold catch, resolve.
  destruct H as [(-> & Hc & Hr)|(-> & Hc & Hm & Hr)].
  - rewrite Hc. unfold bind, call_command. rewrite Hr. repeat split.
  - rewrite Hc, Hm. unfold bind, run_module. rewrite Hr. repeat split.
Qed.

(** X9. An exception that is neither an [Exception] nor a
    [KeyboardInterrupt] leaves the chain: the units that follow are not
    dispatched. *)
Theorem base_exception_aborts (u root cls : string) (args after : list string)
    (k : kind) (h : handler (Ext E)) (st : state E) :
  split_ws (strip u) = root :: args ->
  is_termination root = false ->
  (k = Builtin /\ lookup root (commands E) = Some h /\
   raised (h args (filename st) (ext st) (cmd_output st)) = Some (BaseException cls))
  \/
  (k = Module /\ lookup root (commands E) = None /\
   lookup root (modules E) = Some h /\
   raised (h args (filename st) (ext st) (mod_output st root))
     = Some (BaseException cls)) ->
  let r := for_each (u :: after) (dispatch_unit E) st in
  outcome r = inr (BaseException cls) /\
  events r = [Invoke k root args (filename st) (Some (BaseException cls))].
Proof.
  intros Hp Ht H r. subst r. simpl for_each. unfold bind.
  rewrite (dispatch_unit_parsed E u root args st Hp), Ht.
  unfold catch, resolve.
  destruct H as [(-> & Hc & Hr)|(-> & Hc & Hm & Hr)].
  - rewrite Hc. unfold bind, call_command. rewrite Hr. split; reflexivity.
  - rewrite Hc, Hm. unfold bind, run_module. rewrite Hr. split; reflexivity.
Qed.

(** X10. The output of a module is handed to the store exactly when its
    run returned, the configuration asks for it, and after the run a
    session is open and has a file; what is stored is the trimmed text of
    the unit and the output as the run left it. *)
Theorem module_persistence (u root : string) (args : list string)
    (h : handler (Ext E)) (st : state E) :
  split_ws (strip u) = root :: args ->
  is_termination root = false ->
  lookup root (commands E) = None ->
  lookup root (modules E) = Some h ->
  let call := h args (filename st) (ext st) (mod_output st root) in
  persisted (events (dispatch_unit E u st)) =
  match raised call with
  | None =>
      if store_output E && is_set E (new_ext call)
      then match current_file_path E (new_ext call) with
           | Some _ => [(strip u, new_output call)]
           | None => []
           end
      else []
  | Some _ => []
  end.
Proof.
  intros Hp Ht Hc Hm.
  rewrite (dispatch_unit_parsed E u root args st Hp), Ht.
  unfold catch, resolve. rewrite Hc, Hm.
  unfold bind, run_module, get, persist, modify, on_exception, emit, ret, raise.
  destruct (raised (h args (filename st) (ext st) (mod_output st root)))
    as [[cls d| |cls]|]; unfold events; simpl; try reflexivity.
  destruct (store_output E && is_set E _); simpl; [|reflexivity].
  destruct (current_file_path E _); simpl; [|reflexivity].
  rewrite String.eqb_refl. reflexivity.
Qed.

Lemma unit_calls_bound (u : string) (st : state E) :
  List.length (calls (events (dispatch_unit E u st))) <= 1.
Proof.
  destruct (dispatch_unit_cases u) as [Hb|(root & args & Hp)].
  - rewrite (dispatch_unit_blank E u st Hb). simpl. lia.
  - rewrite (dispatch_unit_parsed E u root args st Hp).
    destruct (is_termination root); [simpl; lia|].
    unfold catch, resolve.
    destruct (lookup root (commands E)) as [h|].
    + unfold bind, call_command, modify, on_exception, emit, ret, raise.
      destruct (raised (h args (filename st) (ext st) (cmd_output st)))
        as [[cls d| |cls]|]; unfold events; simpl; lia.
    + destruct (lookup root (modules E)) as [h|]; [|simpl; lia].
      unfold bind, run_module, get, persist, modify, on_exception, emit, ret, raise.
      destruct (raised (h args (filename st) (ext st) (mod_output st root)))
        as [[cls d| |cls]|]; unfold events; simpl; try lia.
      destruct (store_output E && is_set E _);
        try destruct (current_file_path E _); simpl; lia.
Qed.

(** X11. A chain makes at most one call per unit. *)
Theorem chain_calls_bound (units : list string) (st : state E) :
  List.length (calls (events (for_each units (dispatch_unit E) st)))
  <= List.length units.
Proof.
  revert st; induction units as [|u us IH]; intros st; [simpl; lia|].
  simpl for_each. unfold bind.
  pose proof (unit_calls_bound u st) as Hu.
  destruct (dispatch_unit E u st) as [[[[]|e] st1] ev1];
    unfold events in *; simpl in *; [|lia].
  specialize (IH st1).
  destruct (for_each us (dispatch_unit E) st1) as [[o st2] ev2]; simpl in *.
  rewrite calls_app, List.length_app. lia.
Qed.

Lemma unit_active (u : string) (st : state E) :
  active (state_after (dispatch_unit E u st)) = active st && negb (terminates u).
Proof.
  unfold terminates.
  destruct (dispatch_unit_cases u) as [Hb|(root & args & Hp)].
  - rewrite (dispatch_unit_blank E u st Hb), Hb. simpl.
    rewrite andb_true_r. reflexivity.
  - rewrite (dispatch_unit_parsed E u root args st Hp), Hp.
    destruct (is_termination root).
    + simpl. rewrite andb_false_r. reflexivity.
    + destruct (guarded_resolve_inv E root (strip u) args st) as (_ & Ha & _).
      simpl. rewrite andb_true_r. exact Ha.
Qed.

(** X12. After a chain that has run to its end, the active flag is set
    exactly when it was set before and no unit of the chain begins with
    [exit] or [quit]. *)
Theorem chain_active (units : list string) (st : state E) :
  outcome (for_each units (dispatch_unit E) st) = inl tt ->
  active (state_after (for_each units (dispatch_unit E) st))
  = active st && negb (existsb terminates units).
Proof.
  revert st; induction units as [|u us IH]; intros st.
  - intros _. simpl. rewrite andb_true_r. reflexivity.
  - simpl for_each. unfold bind.
    pose proof (unit_active u st) as Hu.
    destruct (dispatch_unit E u st) as [[[[]|e] st1] ev1];
      unfold outcome, state_after in *; simpl in *; [|discriminate].
    specialize (IH st1).
    destruct (for_each us (dispatch_unit E) st1) as [[o st2] ev2]; simpl in *.
    intros Ho. rewrite (IH Ho), Hu, negb_orb, andb_assoc. reflexivity.
Qed.

End UnitFacts.

(** ** The processing of a line and the loop *)

Section LoopFacts.

Variable E : Env.

Lemma systems_app (a b : list event) : systems (a ++ b) = systems a ++ systems b.
Proof.
  induction a as [|e a IH]; simpl; [reflexivity|].
  destruct e; simpl; rewrite IH; reflexivity.
Qed.

Lemma unit_no_system (u : string) (st : state E) :
  systems (events (dispatch_unit E u st)) = [].
Proof.
  destruct (dispatch_unit_cases u) as [Hb|(root & args & Hp)].
  - rewrite (dispatch_unit_blank E u st Hb). reflexivity.
  - rewrite (dispatch_unit_parsed E u root args st Hp).
    destruct (is_termination root); [reflexivity|].
    unfold catch, resolve.
    destruct (lookup root (commands E)) as [h|].
    + unfold bind, call_command, modify, on_exception, emit, ret, raise.
      destruct (raised (h args (filename st) (ext st) (cmd_output st)))
        as [[cls d| |cls]|]; reflexivity.
    + destruct (lookup root (modules E)) as [h|]; [|reflexivity].
      unfold bind, run_module, get, persist, modify, on_exception, emit, ret, raise.
      destruct (raised (h args (filename st) (ext st) (mod_output st root)))
        as [[cls d| |cls]|]; try reflexivity.
      simpl. destruct (store_output E && is_set E _);
        try destruct (current_file_path E _); reflexivity.
Qed.

Lemma chain_no_system (units : list string) (st : state E) :
  systems (events (for_each units (dispatch_unit E) st)) = [].
Proof.
  revert st; induction units as [|u us IH]; intros st; [reflexivity|].
  simpl for_each. unfold bind.
  pose proof (unit_no_system u st) as Hu.
  destruct (dispatch_unit E u st) as [[[[]|e] st1] ev1];
    unfold events in *; simpl in *; [|exact Hu].
  specialize (IH st1).
  destruct (for_each us (dispatch_unit E) st1) as [[o st2] ev2]; simpl in *.
  rewrite systems_app, Hu, IH. reflexivity.
Qed.

Lemma redirect_events (d : string) (st : state E) :
  systems (events (redirect E d st)) = [].
Proof.
  unfold redirect. destruct (contains_char ">" d); [|reflexivity].
  destruct (split ">" d) as [|c [|f [|x l]]]; reflexivity.
Qed.

(** X13. A line whose command part does not begin with [!] never reaches
    [os.system], and when its chain has run to its end the redirect
    target is unset. *)
Theorem line_without_escape (d dcmd : string) (st : state E) :
  outcome (redirect E d st) = inl dcmd ->
  startswith "!" dcmd = false ->
  let r := execute E d st in
  systems (events r) = [] /\
  (outcome r = inl tt -> filename (state_after r) = None).
Proof.
  intros Hr Hb r. subst r. unfold execute, bind.
  pose proof (redirect_events d st) as Hev.
  destruct (redirect E d st) as [[[d'|e] st1] ev1];
    unfold outcome, events in *; simpl in *; [|discriminate].
  injection Hr as ->. rewrite Hb.
  pose proof (chain_no_system (split ";" dcmd) st1) as Hs.
  destruct (for_each (split ";" dcmd) (dispatch_unit E) st1)
    as [[[[]|e] st2] ev2]; unfold events, state_after in *; simpl in *.
  - rewrite !systems_app, Hev, Hs. split; reflexivity.
  - rewrite systems_app, Hev, Hs. split; [reflexivity|discriminate].
Qed.

(** X15. A line of blanks is skipped: nothing is emitted and the state is
    left as it was. *)
Theorem blank_line (raw : string) (st : state E) :
  strip raw = "" -> iteration E (Line raw) st = (inl tt, st, []).
Proof. intros H. simpl. rewrite H. reflexivity. Qed.

(** X17. Splitting at a character loses no text: the pieces joined by the
    character give the string back. *)
Theorem split_join (sep : ascii) (s : string) :
  join (String sep "") (split sep s) = s.
Proof.
  induction s as [|c s IH]; [reflexivity|].
  simpl split. destruct (Ascii.eqb c sep) eqn:Hc.
  - apply Ascii.eqb_eq in Hc; subst c.
    rewrite join_cons_empty by apply split_nonempty.
    rewrite IH. reflexivity.
  - pose proof (split_nonempty sep s) as Hn.
    destruct (split sep s) as [|p ps]; [congruence|].
    rewrite join_cons_char, IH. reflexivity.
Qed.

End LoopFacts.

(** ** Completion *)

Section CompleteFacts.

Variable E : Env.

Lemma matching_names_spec (text name : string) :
  In name (matching_names E text) <->
  (In name (map fst (commands E)) \/ In name (map fst (modules E))) /\
  startswith text name = true.
Proof.
  unfold matching_names. rewrite in_app_iff, !filter_In. tauto.
Qed.

(** X18. Below the number of matching names, [complete] returns a command or
    module name that begins with the text. *)
Theorem complete_sound (text : string) (state : nat) :
  state < List.length (matching_names E text) ->
  exists name,
    complete E text state = inl (Some name) /\
    startswith text name = true /\
    (In name (map fst (commands E)) \/ In name (map fst (modules E))).
Proof.
  intros H. rewrite (complete_names E text state H).
  fold (matching_names E text).
  destruct (nth_error (matching_names E text) state) as [name|] eqn:Hn.
  - exists name. split; [reflexivity|].
    apply nth_error_In in Hn. apply matching_names_spec in Hn. tauto.
  - apply nth_error_None in Hn. lia.
Qed.

(** X19. Every command and module name that begins with the text is returned
    at some index below the number of matching names. *)
Theorem complete_complete (text name : string) :
  In name (map fst (commands E)) \/ In name (map fst (modules E)) ->
  startswith text name = true ->
  exists state,
    state < List.length (matching_names E text) /\
    complete E text state = inl (Some name).
Proof.
  intros Hin Hsw.
  assert (H : In name (matching_names E text))
    by (apply matching_names_spec; tauto).
  apply In_nth_error in H as [state Hn].
  exists state.
  assert (Hlt : state < List.length (matching_names E text))
    by (apply nth_error_Some; congruence).
  split; [exact Hlt|].
  rewrite (complete_names E text state Hlt).
  fold (matching_names E text). rewrite Hn. reflexivity.
Qed.

Lemma complete_beyond (text : string) (state : nat) :
  List.length (matching_names E text) <= state ->
  complete E text state =
  match nth_error (map Some (glob E (path_pattern E text)) ++ [None]) state with
  | Some r => inl r
  | None => inr (Exception "IndexError" "list index out of range")
  end.
Proof. intros H. exact (complete_paths E text state H). Qed.

(** X20. When no name begins with the text, the paths that match are
    returned one per index from the first, then the value [None]; an
    index beyond that raises [IndexError]. *)
Theorem complete_paths_only (text : string) (state : nat) :
  matching_names E text = [] ->
  let paths := glob E (path_pattern E text) in
  (forall p, nth_error paths state = Some p ->
             complete E text state = inl (Some p)) /\
  (state = List.length paths -> complete E text state = inl None) /\
  (List.length paths < state ->
   complete E text state = inr (Exception "IndexError" "list index out of range")).
Proof.
  intros Hm paths.
  assert (Hc : complete E text state =
               match nth_error (map Some paths ++ [None]) state with
               | Some r => inl r
               | None => inr (Exception "IndexError" "list index out of range")
               end)
    by (apply complete_beyond; rewrite Hm; simpl; lia).
  rewrite Hc. split; [|split].
  - intros p Hp.
    rewrite nth_error_app1
      by (rewrite length_map; apply nth_error_Some; congruence).
    rewrite nth_error_map, Hp. reflexivity.
  - intros ->.
    rewrite nth_error_app2 by (rewrite length_map; lia).
    rewrite length_map, Nat.sub_diag. reflexivity.
  - intros Hlt.
    assert (Hn : nth_error (map Some paths ++ [None]) state = None).
    { apply nth_error_None. rewrite List.length_app, length_map. simpl. lia. }
    rewrite Hn. reflexivity.
Qed.

(** X21. [complete] raises, and then an [IndexError], exactly when the index
    is at least the number of matching names and greater than the number
    of matching paths. *)
Theorem complete_raises_iff (text : string) (state : nat) :
  (exists e, complete E text state = inr e) <->
  List.length (matching_names E text) <= state /\
  List.length (glob E (path_pattern E text)) < state.
Proof.
  split.
  - intros [e He].
    destruct (Nat.lt_ge_cases state (List.length (matching_names E text)))
      as [Hlt|Hge].
    + rewrite (complete_names E text state Hlt) in He. discriminate.
    + split; [exact Hge|].
      rewrite (complete_beyond text state Hge) in He.
      destruct (nth_error (map Some (glob E (path_pattern E text)) ++ [None]) state)
        eqn:Hn; [discriminate|].
      apply nth_error_None in Hn.
      rewrite List.length_app, length_map in Hn. simpl in Hn. lia.
  - intros [Hge Hlt]. eexists.
    rewrite (complete_beyond text state Hge).
    assert (Hn : nth_error (map Some (glob E (path_pattern E text)) ++ [None]) state
                 = None).
    { apply nth_error_None. rewrite List.length_app, length_map. simpl. lia. }
    rewrite Hn. reflexivity.
Qed.

End CompleteFacts.

(** ** The further properties on concrete inputs *)

(** X1 on concrete inputs. *)
Lemma parse_raises_iff_blank_witness :
  parse Demo.env "   " (Demo.init None)
    = (inr (Exception "IndexError" "list index out of range"), Demo.init None, []) /\
  parse Demo.env (String (ascii_of_nat 160) "") (Demo.init None)
    = (inr (Exception "IndexError" "list index out of range"), Demo.init None, []) /\
  exists root args,
    parse Demo.env " open -l 1 " (Demo.init None)
      = (inl (root, args), Demo.init None, []).
Proof.
  split; [|split].
  - exact (proj1 (parse_raises_iff_blank Demo.env "   " (Demo.init None)) eq_refl).
  - exact (proj1 (parse_raises_iff_blank Demo.env (String (ascii_of_nat 160) "")
                    (Demo.init None)) eq_refl).
  - apply (proj2 (parse_raises_iff_blank Demo.env " open -l 1 " (Demo.init None))).
    discriminate.
Defined.

(** X2 on concrete inputs. *)
Lemma parse_words_clean_witness :
  Forall (fun w => w <> "" /\ has_space w = false) ["find"; "name"; "*.pdf"].
Proof.
  exact (parse_words_clean Demo.env "find  name *.pdf" "find" ["name"; "*.pdf"]
           (Demo.init None) (Demo.init None) [] eq_refl).
Defined.

(** X3 on concrete inputs. *)
Lemma parse_join_witness :
  parse Demo.env "open -l 1" (Demo.init None)
    = (inl ("open", ["-l"; "1"]), Demo.init None, []).
Proof.
  apply (parse_join Demo.env "open" ["-l"; "1"] (Demo.init None)).
  repeat constructor; discriminate.
Defined.

(** X6 on concrete inputs. *)
Lemma unknown_command_witness :
  dispatch_unit Demo.env " zzz 1 " (Demo.init None)
    = (inl tt, Demo.init None, [Print "Command not recognized."]).
Proof.
  exact (unknown_command Demo.env " zzz 1 " "zzz" ["1"] (Demo.init None)
           eq_refl eq_refl eq_refl eq_refl).
Defined.

(** X7 on concrete inputs. *)
Lemma builtin_shadows_module_witness :
  lookup "pdf" (modules Demo2.env) <> None /\
  calls (events (dispatch_unit Demo2.env "pdf id" (Demo2.init None)))
    = [(Builtin, "pdf")].
Proof.
  split; [discriminate|].
  exact (proj1 (builtin_shadows_module Demo2.env "pdf id" "pdf" ["id"]
                  (Demo2.ok "builtin pdf") (Demo2.init None)
                  eq_refl eq_refl eq_refl)).
Defined.

(** X8 on concrete inputs. *)
Lemma interrupt_swallowed_witness :
  events (dispatch_unit Demo2.env "stuck" (Demo2.init None))
    = [Invoke Builtin "stuck" [] None (Some KeyboardInterrupt)] /\
  outcome (dispatch_unit Demo2.env "stuck" (Demo2.init None)) = inl tt.
Proof.
  pose proof (interrupt_swallowed Demo2.env "stuck" "stuck" [] Builtin
                Demo2.interrupted (Demo2.init None) eq_refl eq_refl
                (or_introl (conj eq_refl (conj eq_refl eq_refl))))
    as (Ho & Hev & _).
  split; [exact Hev|exact Ho].
Defined.

(** X9 on concrete inputs. *)
Lemma base_exception_aborts_witness :
  let r := for_each ["bye"; " find x"] (dispatch_unit Demo2.env) (Demo2.init None) in
  outcome r = inr (BaseException "SystemExit") /\
  events r = [Invoke Builtin "bye" [] None (Some (BaseException "SystemExit"))].
Proof.
  exact (base_exception_aborts Demo2.env "bye" "bye" "SystemExit" [] [" find x"]
           Builtin Demo2.exits (Demo2.init None) eq_refl eq_refl
           (or_introl (conj eq_refl (conj eq_refl eq_refl)))).
Defined.

(** X10 on concrete inputs. *)
Lemma module_persistence_witness :
  persisted (events (dispatch_unit Demo2.env " strings -a " (Demo2.init (Some "/tmp/s"))))
    = [("strings -a", ["text"])] /\
  persisted (events (dispatch_unit Demo2.env " strings -a " (Demo2.init None))) = [] /\
  persisted (events (dispatch_unit Demo2.env "yara scan" (Demo2.init (Some "/tmp/s"))))
    = [] /\
  persisted (events (dispatch_unit Demo3.env "strings" (Demo3.init (Some None)))) = [].
Proof.
  split; [|split; [|split]].
  - exact (module_persistence Demo2.env " strings -a " "strings" ["-a"]
             (Demo2.ok "text") (Demo2.init (Some "/tmp/s"))
             eq_refl eq_refl eq_refl eq_refl).
  - exact (module_persistence Demo2.env " strings -a " "strings" ["-a"]
             (Demo2.ok "text") (Demo2.init None)
             eq_refl eq_refl eq_refl eq_refl).
  - exact (module_persistence Demo2.env "yara scan" "yara" ["scan"]
             Demo2.fails (Demo2.init (Some "/tmp/s"))
             eq_refl eq_refl eq_refl eq_refl).
  - exact (module_persistence Demo3.env "strings" "strings" []
             (Demo3.ok "text") (Demo3.init (Some None))
             eq_refl eq_refl eq_refl eq_refl).
Defined.

(** X12 on concrete inputs. *)
Lemma chain_active_witness :
  active (state_after (for_each ["find a"; " quit"; " find b"]
                         (dispatch_unit Demo2.env) (Demo2.init None))) = false /\
  active (state_after (for_each ["find a"; " exits"; " yara"]
                         (dispatch_unit Demo2.env) (Demo2.init None))) = true.
Proof.
  split.
  - exact (chain_active Demo2.env ["find a"; " quit"; " find b"] (Demo2.init None)
             eq_refl).
  - exact (chain_active Demo2.env ["find a"; " exits"; " yara"] (Demo2.init None)
             eq_refl).
Defined.

(** X13 on concrete inputs. *)
Lemma line_without_escape_witness :
  let r := execute Demo2.env "find x; strings > out.txt" (Demo2.init None) in
  systems (events r) = [] /\ filename (state_after r) = None.
Proof.
  pose proof (line_without_escape Demo2.env "find x; strings > out.txt"
                "find x; strings " (Demo2.init None) eq_refl eq_refl) as (Hs & Hf).
  split; [exact Hs|exact (Hf eq_refl)].
Defined.

(** X15 on concrete inputs. *)
Lemma blank_line_witness :
  iteration Demo.env (Line "    ") (Demo.init None) = (inl tt, Demo.init None, []).
Proof. exact (blank_line Demo.env "    " (Demo.init None) eq_refl). Defined.

(** X18 on concrete inputs. *)
Lemma complete_sound_witness :
  exists name,
    complete Demo2.env "st" 1 = inl (Some name) /\
    startswith "st" name = true /\
    (In name (map fst (commands Demo2.env)) \/ In name (map fst (modules Demo2.env))).
Proof.
  apply (complete_sound Demo2.env "st" 1). vm_compute. lia.
Defined.

(** X19 on concrete inputs. *)
Lemma complete_complete_witness :
  exists state,
    state < List.length (matching_names Demo2.env "y") /\
    complete Demo2.env "y" state = inl (Some "yara").
Proof.
  apply (complete_complete Demo2.env "y" "yara").
  - right. simpl. tauto.
  - reflexivity.
Defined.

(** X20 on concrete inputs. *)
Lemma complete_paths_only_witness :
  complete Demo2.env "~/sa" 1 = inl (Some "/home/op/sandbox") /\
  complete Demo2.env "~/sa" 2 = inl None /\
  complete Demo2.env "~/sa" 3 = inr (Exception "IndexError" "list index out of range").
Proof.
  split; [|split].
  - exact (proj1 (complete_paths_only Demo2.env "~/sa" 1 eq_refl)
             "/home/op/sandbox" eq_refl).
  - exact (proj1 (proj2 (complete_paths_only Demo2.env "~/sa" 2 eq_refl)) eq_refl).
  - apply (proj2 (proj2 (complete_paths_only Demo2.env "~/sa" 3 eq_refl))).
    vm_compute. lia.
Defined.

(** X21 on concrete inputs. *)
Lemma complete_raises_iff_witness :
  (exists e, complete Demo2.env "st" 2 = inr e) /\
  List.length (matching_names Demo2.env "p") <= 2 /\
  List.length (glob Demo2.env (path_pattern Demo2.env "p")) < 2.
Proof.
  split.
  - apply (proj2 (complete_raises_iff Demo2.env "st" 2)). vm_compute. lia.
  - apply (proj1 (complete_raises_iff Demo2.env "p" 2)).
    eexists. reflexivity.
Defined.

(** U+00A0 and U+0085 separate words like the blank does. *)
Example parse_latin1_space_example (E : Env) (st : state E) :
  parse E (String "c" (String "d" (String (ascii_of_nat 160)
            (String "x" (String (ascii_of_nat 133) (String "y" ""))))))
        st
  = (inl ("cd", ["x"; "y"]), st, []).
Proof. reflexivity. Qed.
